(** * A shallow embedding of the listing parser and the statistics of
    [src/tor_data_explorer.py]: [FileAnalyzer.parse_file_size],
    [FileAnalyzer.process_file_listing], [DataVisualizer.analyze_patterns]
    and the frequency count of [DataVisualizer.generate_extension_wordcloud].

    Python strings are modelled as [list ascii] (ASCII text); Python floats as
    IEEE binary64 values, with the correctly rounded decimal conversion that
    CPython's [float()] performs; Python exceptions raised on the way as an
    error monad. *)

From Stdlib Require Import ZArith QArith Qpower Qround List Ascii String Bool Lia.
From Stdlib Require Import Permutation.
Import ListNotations.
Open Scope Z_scope.

(** ** Exceptions and the error monad *)

Inductive exn : Type :=
| ValueError      (* float() on a malformed numeral *)
| OverflowError.  (* int() of an infinite float *)

Inductive result (A : Type) : Type :=
| Ok : A -> result A
| Err : exn -> result A.
Arguments Ok {A} _.
Arguments Err {A} _.

Definition bind {A B} (r : result A) (f : A -> result B) : result B :=
  match r with
  | Ok a => f a
  | Err e => Err e
  end.

Notation "x <- r ;; k" := (bind r (fun x => k))
  (at level 61, r at next level, right associativity).

(** ** Characters *)

Definition code (c : ascii) : nat := nat_of_ascii c.

(** [str.isspace] / regex [\s] on ASCII: tab, LF, VT, FF, CR, the
    separators 0x1C..0x1F, and space. *)
Definition is_space (c : ascii) : bool :=
  let n := code c in
  ((9 <=? n) && (n <=? 13))%nat || ((28 <=? n) && (n <=? 32))%nat.

(** Line boundaries of [str.splitlines] on ASCII: LF, VT, FF, CR, 0x1C..0x1E. *)
Definition is_line_break (c : ascii) : bool :=
  let n := code c in
  ((10 <=? n) && (n <=? 13))%nat || ((28 <=? n) && (n <=? 30))%nat.

Definition LF : ascii := ascii_of_nat 10.
Definition CR : ascii := ascii_of_nat 13.

Definition is_digit (c : ascii) : bool :=
  let n := code c in ((48 <=? n) && (n <=? 57))%nat.

Definition digit_value (c : ascii) : Z := Z.of_nat (code c) - 48.

(** [str.lower] on ASCII. *)
Definition lower_char (c : ascii) : ascii :=
  let n := code c in
  if ((65 <=? n) && (n <=? 90))%nat then ascii_of_nat (n + 32) else c.

Definition lower (s : list ascii) : list ascii := map lower_char s.

Fixpoint takewhile (p : ascii -> bool) (s : list ascii) : list ascii :=
  match s with
  | [] => []
  | c :: s' => if p c then c :: takewhile p s' else []
  end.

Fixpoint skipwhile (p : ascii -> bool) (s : list ascii) : list ascii :=
  match s with
  | [] => []
  | c :: s' => if p c then skipwhile p s' else s
  end.

(** ** [str.strip], [str.lstrip] *)

Fixpoint lstrip (s : list ascii) : list ascii :=
  match s with
  | [] => []
  | c :: s' => if is_space c then lstrip s' else s
  end.

Definition rstrip (s : list ascii) : list ascii := rev (lstrip (rev s)).

Definition strip (s : list ascii) : list ascii := rstrip (lstrip s).

(** ** IEEE binary64 *)

(** A finite double [Fin m e] has the value [m * 2^e], with [0 <= m < 2^53]
    and [-1074 <= e]; [Inf] is positive infinity.  Only non-negative values
    arise in this program. *)
Inductive dbl : Type :=
| Fin : Z -> Z -> dbl
| Inf : dbl.

(** [N / (D * 2^e)] as a numerator / denominator pair of integers. *)
Definition scaled (N D e : Z) : Z * Z :=
  if 0 <=? e then (N, D * 2 ^ e) else (N * 2 ^ (- e), D).

(** Round-to-nearest-even of the rational [N / D] (with [N >= 0], [D > 0])
    to binary64: the exponent is chosen so that the quotient has 53 bits
    (fewer for subnormals), then the remainder decides the rounding. *)
Definition round_ratio (N D : Z) : dbl :=
  if N <=? 0 then Fin 0 0 else
  let e0 := Z.log2 N - Z.log2 D - 52 in
  let e1 := let '(n, d) := scaled N D e0 in
            if n / d <? 2 ^ 52 then e0 - 1 else e0 in
  let e := Z.max e1 (-1074) in
  let '(n, d) := scaled N D e in
  let q := n / d in
  let r := n mod d in
  let q' := if d <? 2 * r then q + 1
            else if 2 * r =? d then (if Z.odd q then q + 1 else q)
            else q in
  let '(m, e') := if q' =? 2 ^ 53 then (2 ^ 52, e + 1) else (q', e) in
  if 1024 <=? Z.log2 m + e' then Inf else Fin m e'.

(** Python's [float(s)] on a string made of digits and dots: at most one
    dot and at least one digit, otherwise [ValueError]. *)
Fixpoint digits_value (acc : Z) (s : list ascii) : Z :=
  match s with
  | [] => acc
  | c :: s' => digits_value (10 * acc + digit_value c) s'
  end.

Definition float_of_string (s : list ascii) : result dbl :=
  let int_part := takewhile is_digit s in
  let rest := skipwhile is_digit s in
  match rest with
  | [] =>
      if (List.length int_part =? 0)%nat then Err ValueError
      else Ok (round_ratio (digits_value 0 int_part) 1)
  | c :: frac =>
      if negb (Ascii.eqb c "."%char) then Err ValueError
      else if negb (forallb is_digit frac) then Err ValueError
      else if (List.length int_part + List.length frac =? 0)%nat then Err ValueError
      else Ok (round_ratio (digits_value 0 (int_part ++ frac))
                           (10 ^ Z.of_nat (List.length frac)))
  end.

(** [float * int] for a positive [int] that is exactly representable
    (as the multipliers below are): the exact product, rounded. *)
Definition dbl_mul_int (x : dbl) (n : Z) : dbl :=
  match x with
  | Inf => Inf
  | Fin m e =>
      if 0 <=? e then round_ratio (m * n * 2 ^ e) 1
      else round_ratio (m * n) (2 ^ (- e))
  end.

(** Python's [int(x)] on a non-negative float: truncation, and
    [OverflowError] on infinity. *)
Definition py_int (x : dbl) : result Z :=
  match x with
  | Inf => Err OverflowError
  | Fin m e => Ok (Z.shiftl m e)
  end.

(** ** [FileAnalyzer.parse_file_size] *)

(** [SIZE_MULTIPLIERS.get(unit, 1)] *)
Definition SIZE_MULTIPLIERS (u : ascii) : Z :=
  if Ascii.eqb u "K" then 1024
  else if Ascii.eqb u "M" then 1024 ^ 2
  else if Ascii.eqb u "G" then 1024 ^ 3
  else if Ascii.eqb u "T" then 1024 ^ 4
  else 1.

Definition is_unit (c : ascii) : bool :=
  Ascii.eqb c "K" || Ascii.eqb c "M" || Ascii.eqb c "G" || Ascii.eqb c "T".

Definition is_digit_or_dot (c : ascii) : bool := is_digit c || Ascii.eqb c ".".

(** [re.match(r'^([\d.]+)([KMGT])?B?$', s)]: the groups (value, unit).
    The greedy [[\d.]+] never has to give back a character, since no later
    part of the pattern accepts a digit or a dot. *)
Definition size_match (s : list ascii) : option (list ascii * option ascii) :=
  let v := takewhile is_digit_or_dot s in
  let rest := skipwhile is_digit_or_dot s in
  match v with
  | [] => None
  | _ =>
      match rest with
      | [] => Some (v, None)
      | [u] =>
          if is_unit u then Some (v, Some u)
          else if Ascii.eqb u "B" then Some (v, None)
          else None
      | [u; b] =>
          if is_unit u && Ascii.eqb b "B" then Some (v, Some u) else None
      | _ => None
      end
  end.

Definition parse_file_size (size_str : list ascii) : result Z :=
  match size_match (strip size_str) with
  | None => Ok 0
  | Some (value, unit) =>
      bytes_value <- float_of_string value ;;
      let bytes_value :=
        match unit with
        | Some u => dbl_mul_int bytes_value (SIZE_MULTIPLIERS u)
        | None => bytes_value
        end in
      py_int bytes_value
  end.

Definition L (s : string) : list ascii := list_ascii_of_string s.

(** ** [FileAnalyzer.process_file_listing] *)

(** [str.splitlines] on ASCII: CR LF counts as one boundary; no empty last
    line after a final boundary. *)
Fixpoint splitlines_aux (cur : list ascii) (s : list ascii) : list (list ascii) :=
  match s with
  | [] => match cur with [] => [] | _ => [rev cur] end
  | c :: s' =>
      if is_line_break c then
        if Ascii.eqb c CR then
          match s' with
          | c' :: t => if Ascii.eqb c' LF then rev cur :: splitlines_aux [] t
                       else rev cur :: splitlines_aux [] s'
          | [] => rev cur :: splitlines_aux [] s'
          end
        else rev cur :: splitlines_aux [] s'
      else splitlines_aux (c :: cur) s'
  end.

Definition splitlines (s : list ascii) : list (list ascii) := splitlines_aux [] s.

(** The lines given to the pattern below come from [str.splitlines] and
    contain no LF, so the regex [.] accepts every character of them and [$]
    is the end of the text. *)

(** [\s+(.+)$] on the text after the closing bracket: the greedy [\s+]
    takes the whole run of white space, and gives back its last character
    to [(.+)] when nothing else is left. *)
Definition ws_then_name (s : list ascii) : option (list ascii) :=
  match s with
  | w :: _ =>
      if is_space w then
        match skipwhile is_space s with
        | [] =>
            (match rev s with
             | l :: _ :: _ => Some [l]
             | _ => None
             end)
        | name => Some name
        end
      else None
  | [] => None
  end.

(** [(.+?)\]\s+(.+)$] on the text after an opening bracket: the lazy
    group tries the shortest content first.  [acc] is the content read so
    far, reversed. *)
Fixpoint lazy_close (acc : list ascii) (s : list ascii)
  : option (list ascii * list ascii) :=
  match s with
  | [] => None
  | c :: s' =>
      match acc with
      | [] => lazy_close [c] s'
      | _ =>
          if Ascii.eqb c "]" then
            match ws_then_name s' with
            | Some name => Some (rev acc, name)
            | None => lazy_close (c :: acc) s'
            end
          else lazy_close (c :: acc) s'
      end
  end.

(** [re.match(r'.*\[(.+?)\]\s+(.+)$', s)]: the groups (size, name).
    The greedy [.*] tries the longest prefix first, so the opening bracket
    furthest to the right that allows a match is used. *)
Fixpoint line_match (s : list ascii) : option (list ascii * list ascii) :=
  match s with
  | [] => None
  | c :: s' =>
      match line_match s' with
      | Some r => Some r
      | None => if Ascii.eqb c "[" then lazy_close [] s' else None
      end
  end.

(** ** [pathlib.PurePosixPath(name).suffix] (CPython 3.8 to 3.13) *)

(** [s.split(sep)]; [cur] is the current piece, reversed. *)
Fixpoint split_on (sep : ascii) (cur : list ascii) (s : list ascii)
  : list (list ascii) :=
  match s with
  | [] => [rev cur]
  | c :: s' =>
      if Ascii.eqb c sep then rev cur :: split_on sep [] s'
      else split_on sep (c :: cur) s'
  end.

Definition is_dot_piece (x : list ascii) : bool :=
  match x with
  | [c] => Ascii.eqb c "."
  | _ => false
  end.

(** [PurePath.name]: the last of the parts [x] of the path split on
    [/] with [x and x != '.'], or the empty string. *)
Definition path_name (s : list ascii) : list ascii :=
  let parts :=
    filter (fun x => negb (is_dot_piece x) && negb (Nat.eqb (List.length x) 0))
           (split_on "/" [] s) in
  last parts [].

(** [s.rfind(c)], [-1] when absent. *)
Fixpoint rfind_aux (c : ascii) (s : list ascii) (i acc : Z) : Z :=
  match s with
  | [] => acc
  | x :: s' => rfind_aux c s' (i + 1) (if Ascii.eqb x c then i else acc)
  end.

Definition rfind (c : ascii) (s : list ascii) : Z := rfind_aux c s 0 (-1).

(** [PurePath.suffix]:
    [i = name.rfind('.'); if 0 < i < len(name) - 1: return name[i:]]. *)
Definition suffix (p : list ascii) : list ascii :=
  let name := path_name p in
  let i := rfind "." name in
  if (0 <? i) && (i <? Z.of_nat (List.length name) - 1)
  then skipn (Z.to_nat i) name
  else [].

(** ** The records *)

Record FileEntry : Type := mkFileEntry {
  path : list ascii;
  size : Z;
  extension : list ascii
}.

(** ['/'.join(parts)] *)
Fixpoint join (sep : ascii) (parts : list (list ascii)) : list ascii :=
  match parts with
  | [] => []
  | [x] => x
  | x :: xs => x ++ sep :: join sep xs
  end.

(** [len(line) - len(line.lstrip())) // 2] *)
Definition indent_level (line : list ascii) : nat :=
  ((List.length line - List.length (lstrip line)) / 2)%nat.

(** [current_path.pop()] repeated [k] times. *)
Fixpoint pop_times (k : nat) (current_path : list (list ascii))
  : list (list ascii) :=
  match k with
  | O => current_path
  | S k' => pop_times k' (removelast current_path)
  end.

(** [while len(current_path) > indent_level: current_path.pop()]: the loop
    body runs [len(current_path) - indent_level] times. *)
Definition pop_while (current_path : list (list ascii)) (indent : nat)
  : list (list ascii) :=
  pop_times (List.length current_path - indent) current_path.

(** The loop of [process_file_listing] over the lines, from the path stack
    [current_path]; the entries are returned in the order they are
    appended.  An exception of [parse_file_size] aborts the whole call. *)
Fixpoint process_lines (current_path : list (list ascii))
    (lines : list (list ascii)) : result (list FileEntry) :=
  match lines with
  | [] => Ok []
  | line :: rest =>
      if Nat.eqb (List.length (strip line)) 0 then process_lines current_path rest
      else
        let indent := indent_level line in
        let current_path := pop_while current_path indent in
        match line_match (strip line) with
        | None => process_lines current_path rest
        | Some (size_str, name) =>
            size <- parse_file_size size_str ;;
            let current_path := firstn indent current_path ++ [name] in
            let full_path := join "/" current_path in
            let extension := lower (suffix name) in
            entries <- process_lines current_path rest ;;
            Ok (mkFileEntry full_path size extension :: entries)
        end
  end.

Definition process_file_listing (content : list ascii) : result (list FileEntry) :=
  process_lines [] (splitlines content).

Definition nl : string := String LF EmptyString.

Definition example_listing : list ascii :=
  L ("[ 10M] root" ++ nl ++ "  [ 1M] a.txt" ++ nl ++ "  [ 2M] sub" ++ nl
     ++ "    [500K] b.log")%string.

(** ** [DataVisualizer.analyze_patterns] *)

(** The three fixed keys of [size_distribution]. *)
Record SizeDistribution : Type := mkSizeDistribution {
  small : nat;
  medium : nat;
  large : nat
}.

Record AnalysisResult : Type := mkAnalysisResult {
  total_files : nat;
  total_size : Z;
  extension_stats : list (list ascii * nat);
  size_distribution : SizeDistribution
}.

Definition list_eqb (a b : list ascii) : bool :=
  if list_eq_dec ascii_dec a b then true else false.

(** [if k not in d: d[k] = 0] followed by [d[k] += 1], on a dict kept as
    an association list in insertion order. *)
Fixpoint dict_incr (k : list ascii) (d : list (list ascii * nat))
  : list (list ascii * nat) :=
  match d with
  | [] => [(k, 1%nat)]
  | (k', v) :: d' =>
      if list_eqb k k' then (k', S v) :: d' else (k', v) :: dict_incr k d'
  end.

Definition sum_sizes (entries : list FileEntry) : Z :=
  fold_left (fun acc e => acc + size e) entries 0.

(** One iteration of the loop: extension statistics, then size bucket. *)
Definition analyze_step (a : AnalysisResult) (entry : FileEntry) : AnalysisResult :=
  let stats :=
    match extension entry with
    | [] => extension_stats a
    | ext => dict_incr ext (extension_stats a)
    end in
  let sd := size_distribution a in
  let sd :=
    if size entry <? 1024 ^ 2 then
      mkSizeDistribution (S (small sd)) (medium sd) (large sd)
    else if size entry <? 100 * 1024 ^ 2 then
      mkSizeDistribution (small sd) (S (medium sd)) (large sd)
    else mkSizeDistribution (small sd) (medium sd) (S (large sd)) in
  mkAnalysisResult (total_files a) (total_size a) stats sd.

Definition analyze_patterns (entries : list FileEntry) : AnalysisResult :=
  let analysis :=
    mkAnalysisResult (List.length entries) (sum_sizes entries) []
                     (mkSizeDistribution 0 0 0) in
  fold_left analyze_step entries analysis.

(** The spec's format of a size token: one or more digits, optionally a
    dot and more digits, optionally one of [K M G T], optionally [B]. *)
Definition spec_size_format (s : list ascii) : bool :=
  let int_part := takewhile is_digit s in
  let rest := skipwhile is_digit s in
  let rest :=
    match rest with
    | c :: r =>
        if Ascii.eqb c "." then
          (match takewhile is_digit r with
           | [] => [c]
           | _ => skipwhile is_digit r
           end)
        else rest
    | [] => []
    end in
  negb (Nat.eqb (List.length int_part) 0) &&
  match rest with
  | [] => true
  | [u] => is_unit u || Ascii.eqb u "B"
  | [u; b] => is_unit u && Ascii.eqb b "B"
  | _ => false
  end.

(** The lines of a text that the pattern of [process_file_listing] accepts,
    with their groups (size token, name), in order. *)
Definition matched_lines (content : list ascii) : list (list ascii * list ascii) :=
  flat_map (fun line => match line_match (strip line) with
                        | Some m => [m]
                        | None => []
                        end) (splitlines content).

(** The entries of a list whose extension is not empty. *)
Definition with_extension (entries : list FileEntry) : list FileEntry :=
  filter (fun e => negb (Nat.eqb (List.length (extension e)) 0)) entries.

Fixpoint sum_values (d : list (list ascii * nat)) : nat :=
  match d with
  | [] => 0
  | (_, v) :: d' => v + sum_values d'
  end.

Definition entry (n : Z) : FileEntry := mkFileEntry (L "f") n [].

(** ** [DataVisualizer.generate_extension_wordcloud]: the frequencies *)

(** [d.get(k)] on a dict kept as an association list: [None] when [k] is
    not a key. *)
Fixpoint dict_find (k : list ascii) (d : list (list ascii * nat)) : option nat :=
  match d with
  | [] => None
  | (k', v) :: d' => if list_eqb k k' then Some v else dict_find k d'
  end.

(** [d.get(k, default)] *)
Definition dict_get (k : list ascii) (d : list (list ascii * nat)) (default : nat)
  : nat :=
  match dict_find k d with
  | Some v => v
  | None => default
  end.

(** [d[k] = v]: an existing key keeps its place, a new key goes last. *)
Fixpoint dict_set (k : list ascii) (v : nat) (d : list (list ascii * nat))
  : list (list ascii * nat) :=
  match d with
  | [] => [(k, v)]
  | (k', v') :: d' =>
      if list_eqb k k' then (k', v) :: d' else (k', v') :: dict_set k v d'
  end.

(** One iteration of the counting loop:
    [if entry.extension:
       extension_counts[entry.extension] = extension_counts.get(entry.extension, 0) + 1] *)
Definition wordcloud_step (counts : list (list ascii * nat)) (entry : FileEntry)
  : list (list ascii * nat) :=
  match extension entry with
  | [] => counts
  | ext => dict_set ext (dict_get ext counts 0 + 1) counts
  end.

(** [extension_counts], the frequencies handed to
    [WordCloud.generate_from_frequencies]; the drawing and the PNG output
    are not modelled. *)
Definition extension_counts (entries : list FileEntry) : list (list ascii * nat) :=
  fold_left wordcloud_step entries [].

(** The number of entries whose extension is [k]. *)
Definition count_extension (k : list ascii) (entries : list FileEntry) : nat :=
  List.length (filter (fun e => list_eqb (extension e) k) entries).

(** The number of dots in a text. *)
Definition count_dots (s : list ascii) : nat :=
  List.length (filter (fun c => Ascii.eqb c ".") s).

(** ASCII capital letters, the characters [str.lower] changes. *)
Definition is_upper (c : ascii) : bool :=
  let n := code c in ((65 <=? n) && (n <=? 90))%nat.

(** An empty extension, or a dot followed by at least one character, with
    no capital letter. *)
Definition extension_shape (x : list ascii) : Prop :=
  (x = [] \/ exists c r, x = "."%char :: c :: r) /\
  forallb (fun c => negb (is_upper c)) x = true.

(** The entries of [example_listing]. *)
Definition example_entries : list FileEntry :=
  [mkFileEntry (L "root") 10485760 [];
   mkFileEntry (L "root/a.txt") 1048576 (L ".txt");
   mkFileEntry (L "root/sub") 2097152 [];
   mkFileEntry (L "root/sub/b.log") 512000 (L ".log")].

(** ** Basic facts *)

Lemma sum_values_dict_incr (k : list ascii) (d : list (list ascii * nat)) :
  sum_values (dict_incr k d) = S (sum_values d).
Proof.
  induction d as [|[k' v] d IH]; cbn; [reflexivity|].
  destruct (list_eqb k k'); cbn; [reflexivity|]. rewrite IH. lia.
Qed.

Lemma fold_analyze_counts (es : list FileEntry) (a : AnalysisResult) :
  let r := fold_left analyze_step es a in
  total_files r = total_files a /\
  (small (size_distribution r) + medium (size_distribution r)
     + large (size_distribution r)
   = small (size_distribution a) + medium (size_distribution a)
     + large (size_distribution a) + List.length es)%nat /\
  sum_values (extension_stats r)
  = (sum_values (extension_stats a) + List.length (with_extension es))%nat.
Proof.
  revert a; induction es as [|e es IH]; intros a; cbn [fold_left].
  - cbn. lia.
  - destruct (IH (analyze_step a e)) as (H1 & H2 & H3).
    rewrite H1, H2, H3. unfold analyze_step, with_extension; cbn [filter].
    destruct (size e <? 1024 ^ 2); [|destruct (size e <? 100 * 1024 ^ 2)];
      destruct (extension e) as [|c ext]; cbn;
      rewrite ?sum_values_dict_incr; unfold with_extension; lia.
Qed.

Lemma fold_analyze_buckets (es : list FileEntry) (a : AnalysisResult) :
  let sd := size_distribution (fold_left analyze_step es a) in
  small sd = (small (size_distribution a)
              + List.length (filter (fun e => (size e <? 1048576)%Z) es))%nat /\
  medium sd = (medium (size_distribution a)
               + List.length (filter (fun e => ((1048576 <=? size e)
                                               && (size e <? 104857600))%Z) es))%nat /\
  large sd = (large (size_distribution a)
              + List.length (filter (fun e => (104857600 <=? size e)%Z) es))%nat.
Proof.
  revert a; induction es as [|e es IH]; intros a; cbn [fold_left filter].
  - cbn. lia.
  - destruct (IH (analyze_step a e)) as (H1 & H2 & H3).
    rewrite H1, H2, H3. unfold analyze_step.
    destruct (size e <? 1024 ^ 2) eqn:Hs;
      [|destruct (size e <? 100 * 1024 ^ 2) eqn:Hm];
      cbn in Hs |- *; try (cbn in Hm);
      rewrite ?Z.ltb_lt, ?Z.ltb_ge in *;
      repeat match goal with
             | |- context [?a <? ?b] => destruct (Z.ltb_spec a b)
             | |- context [?a <=? ?b] => destruct (Z.leb_spec a b)
             end; cbn; lia.
Qed.

Lemma pop_times_firstn (k : nat) (cp : list (list ascii)) :
  pop_times k cp = firstn (List.length cp - k) cp.
Proof.
  revert cp; induction k as [|k IH]; intros cp; cbn [pop_times].
  - rewrite Nat.sub_0_r, firstn_all. reflexivity.
  - rewrite IH, removelast_firstn_len, firstn_firstn, length_firstn.
    f_equal. lia.
Qed.

Lemma pop_while_firstn (cp : list (list ascii)) (indent : nat) :
  pop_while cp indent = firstn indent cp.
Proof.
  unfold pop_while. rewrite pop_times_firstn.
  destruct (Nat.le_gt_cases indent (List.length cp)).
  - f_equal. lia.
  - replace (List.length cp - (List.length cp - indent))%nat
      with (List.length cp) by lia.
    rewrite firstn_all, firstn_all2 by lia. reflexivity.
Qed.

(** ** Claims *)

(** C9: the empty text gives no entry, and the statistics of no entry are
    all zero. *)
Theorem empty_listing_all_zero :
  process_file_listing [] = Ok [] /\
  analyze_patterns [] = mkAnalysisResult 0 0 [] (mkSizeDistribution 0 0 0).
Proof. split; reflexivity. Qed.

(** C8: the four-line example listing with two-space indents gives the
    entries [root], [root/a.txt], [root/sub], [root/sub/b.log], with the
    extensions [""], [".txt"], [""], [".log"], in that order. *)
Theorem example_listing_paths :
  exists s1 s2 s3 s4,
    process_file_listing example_listing =
    Ok [mkFileEntry (L "root") s1 [];
        mkFileEntry (L "root/a.txt") s2 (L ".txt");
        mkFileEntry (L "root/sub") s3 [];
        mkFileEntry (L "root/sub/b.log") s4 (L ".log")].
Proof. do 4 eexists. vm_compute. reflexivity. Qed.

(** C2: the size token ["."] is accepted by the size pattern but rejected
    by [float()], so [process_file_listing] raises on the one-line text
    ["[.] x"] instead of giving the entry a size of zero. *)
Theorem process_file_listing_raises_on_dot_size :
  process_file_listing (L "[.] x") = Err ValueError.
Proof. vm_compute. reflexivity. Qed.

(** C4: the three size buckets add up to [total_files], and the values of
    [extension_stats] add up to the number of entries with an extension. *)
Theorem analyze_patterns_invariants (entries : list FileEntry) :
  let a := analyze_patterns entries in
  (small (size_distribution a) + medium (size_distribution a)
   + large (size_distribution a))%nat = total_files a /\
  sum_values (extension_stats a) = List.length (with_extension entries).
Proof.
  cbn zeta. unfold analyze_patterns.
  destruct (fold_analyze_counts entries
              (mkAnalysisResult (List.length entries) (sum_sizes entries) []
                                (mkSizeDistribution 0 0 0))) as (H1 & H2 & H3).
  cbn zeta in *. rewrite H1, H2, H3. cbn. lia.
Qed.

(** C5: every entry falls in exactly one half-open bucket: [small] below
    2^20, [medium] from 2^20 below 100 * 2^20, [large] from 100 * 2^20;
    1048575 is small, 1048576 medium, 104857600 large. *)
Theorem analyze_patterns_buckets :
  size_distribution (analyze_patterns [entry 1048575]) = mkSizeDistribution 1 0 0 /\
  size_distribution (analyze_patterns [entry 1048576]) = mkSizeDistribution 0 1 0 /\
  size_distribution (analyze_patterns [entry 104857600]) = mkSizeDistribution 0 0 1 /\
  forall entries : list FileEntry,
    let sd := size_distribution (analyze_patterns entries) in
    small sd = List.length (filter (fun e => size e <? 2 ^ 20) entries) /\
    medium sd = List.length (filter (fun e => (2 ^ 20 <=? size e)
                                              && (size e <? 100 * 2 ^ 20)) entries) /\
    large sd = List.length (filter (fun e => 100 * 2 ^ 20 <=? size e) entries).
Proof.
  split; [reflexivity|]. split; [reflexivity|]. split; [reflexivity|].
  intros entries. cbn zeta. unfold analyze_patterns.
  destruct (fold_analyze_buckets entries
              (mkAnalysisResult (List.length entries) (sum_sizes entries) []
                                (mkSizeDistribution 0 0 0))) as (H1 & H2 & H3).
  cbn zeta in *. rewrite H1, H2, H3. cbn. auto.
Qed.

(** C1 (counterexample): [".5K"] is outside the spec's format (no digit
    before the dot) yet [parse_file_size] gives 512, not 0; and ["."] is
    outside it too, yet [parse_file_size] raises [ValueError]. *)
Lemma parse_file_size_format_cex :
  spec_size_format (L ".5K") = false /\ parse_file_size (L ".5K") = Ok 512 /\
  spec_size_format (L ".") = false /\ parse_file_size (L ".") = Err ValueError.
Proof. vm_compute. repeat split. Qed.

(** C1 (amended): whenever the stripped token does not match the code's
    pattern [^([\d.]+)([KMGT])?B?$], [parse_file_size] returns 0 without
    raising. *)
Theorem parse_file_size_nomatch_zero (size_str : list ascii)
  (Hnomatch : size_match (strip size_str) = None) :
  parse_file_size size_str = Ok 0.
Proof. unfold parse_file_size. rewrite Hnomatch. reflexivity. Qed.

Lemma parse_file_size_nomatch_zero_witness :
  size_match (strip (L "garbage")) = None /\ parse_file_size (L "garbage") = Ok 0.
Proof.
  split; [reflexivity|]. apply parse_file_size_nomatch_zero. reflexivity.
Defined.

Definition listing_with_stray : list ascii :=
  L ("[1] a" ++ nl ++ "  [2] b" ++ nl ++ "xyz" ++ nl ++ "    [3] c")%string.

Definition listing_without_stray : list ascii :=
  L ("[1] a" ++ nl ++ "  [2] b" ++ nl ++ "    [3] c")%string.

(** C3 (counterexample): the non-matching line ["xyz"] at indentation 0
    empties the path stack, so the next entry gets the path [c] instead of
    the [a/b/c] it gets when the line is absent. *)
Lemma nonmatching_line_changes_path_cex :
  line_match (strip (L "xyz")) = None /\
  process_file_listing listing_with_stray =
    Ok [mkFileEntry (L "a") 1 []; mkFileEntry (L "a/b") 2 [];
        mkFileEntry (L "c") 3 []] /\
  process_file_listing listing_without_stray =
    Ok [mkFileEntry (L "a") 1 []; mkFileEntry (L "a/b") 2 [];
        mkFileEntry (L "a/b/c") 3 []].
Proof. vm_compute. repeat split. Qed.

(** C3 (amended): a non-blank line that does not match the pattern emits
    no entry but truncates the path stack to its indentation depth; it
    leaves the stack unchanged when the depth is at least the stack's
    length. *)
Theorem nonmatching_line_truncates (current_path : list (list ascii))
  (line : list ascii) (rest : list (list ascii))
  (Hnonblank : Nat.eqb (List.length (strip line)) 0 = false)
  (Hnomatch : line_match (strip line) = None) :
  process_lines current_path (line :: rest)
  = process_lines (firstn (indent_level line) current_path) rest /\
  ((List.length current_path <= indent_level line)%nat ->
   process_lines current_path (line :: rest) = process_lines current_path rest).
Proof.
  cbn [process_lines]. rewrite Hnonblank, Hnomatch, pop_while_firstn.
  split; [reflexivity|]. intros Hle. rewrite firstn_all2 by exact Hle.
  reflexivity.
Qed.

Lemma nonmatching_line_truncates_witness :
  process_lines [L "a"; L "b"] [L "xyz"; L "    [3] c"]
  = process_lines [] [L "    [3] c"].
Proof.
  apply (proj1 (nonmatching_line_truncates [L "a"; L "b"] (L "xyz")
                  [L "    [3] c"] eq_refl eq_refl)).
Defined.

Lemma line_match_nil : line_match [] = None.
Proof. reflexivity. Qed.

Lemma matched_nonblank (line : list ascii) m :
  line_match (strip line) = Some m -> Nat.eqb (List.length (strip line)) 0 = false.
Proof.
  destruct (strip line); [rewrite line_match_nil; discriminate|reflexivity].
Qed.

(** What an emitted entry keeps of its line: the parsed size, the
    extension of the name, and a path whose last segment is the name. *)
Definition entry_of_line (e : FileEntry) (m : list ascii * list ascii) : Prop :=
  parse_file_size (fst m) = Ok (size e) /\
  extension e = lower (suffix (snd m)) /\
  exists stack, path e = join "/" (stack ++ [snd m]).

Lemma process_lines_entries (lines : list (list ascii)) :
  forall current_path entries,
  process_lines current_path lines = Ok entries ->
  Forall2 entry_of_line entries
    (flat_map (fun line => match line_match (strip line) with
                           | Some m => [m]
                           | None => []
                           end) lines).
Proof.
  induction lines as [|line rest IH]; intros current_path entries Hrun.
  - cbn in Hrun. injection Hrun as <-. constructor.
  - cbn [process_lines] in Hrun. cbn [flat_map].
    destruct (Nat.eqb (List.length (strip line)) 0) eqn:Hblank.
    + destruct (strip line); [|discriminate]. rewrite line_match_nil.
      exact (IH _ _ Hrun).
    + destruct (line_match (strip line)) as [[size_str name]|].
      * destruct (parse_file_size size_str) as [sz|x] eqn:Hsz; [|discriminate].
        cbn in Hrun.
        destruct (process_lines _ rest) as [tail|x] eqn:Htail; [|discriminate].
        injection Hrun as <-. cbn [app]. constructor.
        -- split; [exact Hsz|]. split; [reflexivity|].
           eexists. reflexivity.
        -- exact (IH _ _ Htail).
      * exact (IH _ _ Hrun).
Qed.

(** C7: whenever [process_file_listing] returns, it returns one entry per
    line whose stripped text matches the bracketed-size-then-name pattern,
    in the order of those lines: the i-th entry has the size, the
    extension and (as last path segment) the name of the i-th such line. *)
Theorem process_file_listing_one_entry_per_match (content : list ascii)
  (entries : list FileEntry)
  (Hrun : process_file_listing content = Ok entries) :
  List.length entries = List.length (matched_lines content) /\
  Forall2 entry_of_line entries (matched_lines content).
Proof.
  assert (H : Forall2 entry_of_line entries (matched_lines content))
    by exact (process_lines_entries _ _ _ Hrun).
  split; [exact (Forall2_length H)|exact H].
Qed.

Lemma process_file_listing_one_entry_per_match_witness :
  List.length (matched_lines example_listing) = 4%nat.
Proof.
  rewrite <- (proj1 (process_file_listing_one_entry_per_match example_listing
    [mkFileEntry (L "root") 10485760 [];
     mkFileEntry (L "root/a.txt") 1048576 (L ".txt");
     mkFileEntry (L "root/sub") 2097152 [];
     mkFileEntry (L "root/sub/b.log") 512000 (L ".log")]
    ltac:(vm_compute; reflexivity))).
  reflexivity.
Defined.

(** A name that starts with a dot and has no other dot, as [".gitignore"]. *)
Definition leading_dot_only (name : list ascii) : bool :=
  match name with
  | c :: r => Ascii.eqb c "." && negb (existsb (Ascii.eqb ".") r)
  | [] => false
  end.

(** A name whose only dot is its last character, as ["file."]. *)
Definition trailing_dot_only (name : list ascii) : bool :=
  match rev name with
  | c :: r => Ascii.eqb c "." && negb (existsb (Ascii.eqb ".") r)
  | [] => false
  end.

(** ** Splitting and the suffix *)

Lemma split_on_nonempty (sep : ascii) (cur s : list ascii) :
  split_on sep cur s <> [].
Proof.
  revert cur; induction s as [|c s IH]; intros cur; cbn; [discriminate|].
  destruct (Ascii.eqb c sep); [discriminate|apply IH].
Qed.

Lemma split_on_acc (sep : ascii) (s : list ascii) :
  forall cur, exists hd tl,
    split_on sep [] s = hd :: tl /\ split_on sep cur s = (rev cur ++ hd) :: tl.
Proof.
  induction s as [|c s IH]; intros cur; cbn.
  - exists [], []. rewrite app_nil_r. split; reflexivity.
  - destruct (Ascii.eqb c sep).
    + exists [], (split_on sep [] s). rewrite app_nil_r. split; reflexivity.
    + destruct (IH [c]) as (hd & tl & H1 & H2).
      destruct (IH (c :: cur)) as (hd' & tl' & H1' & H2').
      rewrite H1 in H1'. injection H1' as <- <-.
      exists ([c] ++ hd), tl. rewrite H2, H2'. cbn.
      rewrite <- app_assoc. split; reflexivity.
Qed.

Lemma split_on_chars (sep x : ascii) (s : list ascii) :
  forall cur p, In p (split_on sep cur s) -> In x p -> In x cur \/ In x s.
Proof.
  induction s as [|c s IH]; intros cur p Hp Hx; cbn in Hp.
  - destruct Hp as [<-|[]]. left. apply in_rev. exact Hx.
  - destruct (Ascii.eqb c sep).
    + destruct Hp as [<-|Hp].
      * left. apply in_rev. exact Hx.
      * destruct (IH [] p Hp Hx) as [[]|H]. right. right. exact H.
    + destruct (IH (c :: cur) p Hp Hx) as [[<-|H]|H].
      * right. left. reflexivity.
      * left. exact H.
      * right. right. exact H.
Qed.

Lemma split_on_snoc (sep c : ascii) (s : list ascii) :
  Ascii.eqb c sep = false ->
  forall cur, split_on sep cur (s ++ [c])
  = removelast (split_on sep cur s) ++ [last (split_on sep cur s) [] ++ [c]].
Proof.
  intros Hc. induction s as [|x s IH]; intros cur; cbn.
  - rewrite Hc. reflexivity.
  - destruct (Ascii.eqb x sep).
    + rewrite IH. pose proof (split_on_nonempty sep [] s) as Hne.
      destruct (split_on sep [] s) as [|p ps]; [contradiction|].
      reflexivity.
    + apply IH.
Qed.

Lemma rfind_aux_nodot (c : ascii) (s : list ascii) :
  ~ In c s -> forall i acc, rfind_aux c s i acc = acc.
Proof.
  induction s as [|x s IH]; intros Hs i acc; cbn; [reflexivity|].
  destruct (Ascii.eqb_spec x c) as [->|Hx]; [exfalso; apply Hs; left; reflexivity|].
  apply IH. intros H. apply Hs. right. exact H.
Qed.

Lemma rfind_aux_snoc (c : ascii) (s : list ascii) :
  ~ In c s -> forall i acc, rfind_aux c (s ++ [c]) i acc = i + Z.of_nat (List.length s).
Proof.
  induction s as [|x s IH]; intros Hs i acc; cbn.
  - rewrite Ascii.eqb_refl. lia.
  - rewrite IH by (intros H; apply Hs; right; exact H). lia.
Qed.

(** The names [pathlib] gives no suffix for: no dot, one dot in front, or
    one dot at the end. *)
Definition dot_shape (q : list ascii) : Prop :=
  ~ In "."%char q \/
  (exists r, q = "."%char :: r /\ ~ In "."%char r) \/
  (exists r, q = r ++ ["."%char] /\ ~ In "."%char r).

Lemma suffix_of_shape (p : list ascii) :
  dot_shape (path_name p) -> suffix p = [].
Proof.
  unfold suffix, rfind. generalize (path_name p) as q.
  intros q [Hq|[(r & -> & Hr)|(r & -> & Hr)]].
  - rewrite rfind_aux_nodot by exact Hq. reflexivity.
  - cbn. rewrite rfind_aux_nodot by exact Hr. reflexivity.
  - rewrite rfind_aux_snoc by exact Hr.
    match goal with
    | |- context [?x <? ?y - 1] => destruct (Z.ltb_spec x (y - 1)) as [Hlt|_]
    end.
    + rewrite ?length_app in Hlt. cbn [List.length] in Hlt. lia.
    + rewrite andb_false_r. reflexivity.
Qed.

Lemma no_dot_of_existsb (r : list ascii) :
  existsb (Ascii.eqb ".") r = false -> ~ In "."%char r.
Proof.
  intros H Hin. assert (Hex : existsb (Ascii.eqb ".") r = true).
  { apply existsb_exists. exists "."%char. split; [exact Hin|apply Ascii.eqb_refl]. }
  congruence.
Qed.

Lemma pieces_no_dot (s cur : list ascii) p :
  ~ In "."%char cur -> ~ In "."%char s -> In p (split_on "/" cur s) ->
  ~ In "."%char p.
Proof.
  intros Hcur Hs Hp Hin.
  destruct (split_on_chars "/" "." s cur p Hp Hin); contradiction.
Qed.

Lemma leading_dot_pieces (name : list ascii) :
  leading_dot_only name = true ->
  forall p, In p (split_on "/" [] name) -> dot_shape p.
Proof.
  destruct name as [|c r]; [discriminate|]. cbn [leading_dot_only].
  intros H. apply andb_true_iff in H as [Hc Hr].
  apply Ascii.eqb_eq in Hc. subst c. apply negb_true_iff, no_dot_of_existsb in Hr.
  destruct (split_on_acc "/" r ["."%char]) as (hd & tl & H1 & H2).
  intros p Hp. cbn in Hp. rewrite H2 in Hp. cbn in Hp.
  assert (Hpieces : forall q, In q (hd :: tl) -> ~ In "."%char q).
  { intros q Hq. rewrite <- H1 in Hq. exact (pieces_no_dot r [] q (fun x => x) Hr Hq). }
  destruct Hp as [<-|Hp].
  - right. left. exists hd. split; [reflexivity|]. apply Hpieces. left. reflexivity.
  - left. apply Hpieces. right. exact Hp.
Qed.

Lemma trailing_dot_pieces (name : list ascii) :
  trailing_dot_only name = true ->
  forall p, In p (split_on "/" [] name) -> dot_shape p.
Proof.
  unfold trailing_dot_only. intros H.
  destruct (rev name) as [|c r] eqn:Hrev; [discriminate|].
  apply andb_true_iff in H as [Hc Hr].
  apply Ascii.eqb_eq in Hc. subst c. apply negb_true_iff, no_dot_of_existsb in Hr.
  assert (Hname : name = rev r ++ ["."%char]).
  { rewrite <- (rev_involutive name), Hrev. reflexivity. }
  assert (Hr' : ~ In "."%char (rev r)) by (rewrite <- in_rev; exact Hr).
  subst name. rewrite (split_on_snoc "/" "." (rev r) eq_refl []).
  set (ps := split_on "/" [] (rev r)).
  assert (Hps : forall q, In q ps -> ~ In "."%char q)
    by (intros q Hq; exact (pieces_no_dot (rev r) [] q (fun x => x) Hr' Hq)).
  assert (Hne : ps <> []) by apply split_on_nonempty.
  pose proof (app_removelast_last [] Hne) as Hsplit.
  intros p Hp. apply in_app_or in Hp as [Hp|[<-|[]]].
  - left. apply Hps. rewrite Hsplit. apply in_or_app. left. exact Hp.
  - right. right. exists (last ps []). split; [reflexivity|].
    apply Hps. rewrite Hsplit at 2. apply in_or_app. right. left. reflexivity.
Qed.

Lemma path_name_shape (name : list ascii) :
  (forall p, In p (split_on "/" [] name) -> dot_shape p) ->
  dot_shape (path_name name).
Proof.
  intros H. unfold path_name.
  set (parts := filter _ _).
  destruct parts as [|q qs] eqn:Hparts.
  - left. intros [].
  - apply H. assert (Hin : In (last (q :: qs) []) parts).
    { rewrite Hparts. pose proof (app_removelast_last [] (l := q :: qs)
                                   ltac:(discriminate)) as E.
      rewrite E at 2. apply in_or_app. right. left. reflexivity. }
    unfold parts in Hin. apply filter_In in Hin. exact (proj1 Hin).
Qed.

Lemma emitted_extension (current_path : list (list ascii)) (line : list ascii)
  (rest : list (list ascii)) size_str name e entries :
  line_match (strip line) = Some (size_str, name) ->
  process_lines current_path (line :: rest) = Ok (e :: entries) ->
  extension e = lower (suffix name).
Proof.
  intros Hm Hrun. cbn [process_lines] in Hrun.
  rewrite (matched_nonblank line _ Hm), Hm in Hrun.
  destruct (parse_file_size size_str); [|discriminate]. cbn in Hrun.
  destruct (process_lines _ rest); [|discriminate].
  injection Hrun as <- _. reflexivity.
Qed.

(** C10: a matched line whose name starts with a dot and has no other dot
    (as [".gitignore"]), or whose only dot is its last character (as
    ["file."]), gives an entry with an empty extension.  [pathlib] is
    modelled as in CPython 3.8 to 3.13. *)
Theorem dot_names_have_no_extension (current_path : list (list ascii))
  (line : list ascii) (rest : list (list ascii)) size_str name e entries
  (Hmatch : line_match (strip line) = Some (size_str, name))
  (Hname : leading_dot_only name = true \/ trailing_dot_only name = true)
  (Hrun : process_lines current_path (line :: rest) = Ok (e :: entries)) :
  extension e = [].
Proof.
  rewrite (emitted_extension _ _ _ _ _ _ _ Hmatch Hrun).
  rewrite suffix_of_shape; [reflexivity|].
  apply path_name_shape.
  destruct Hname as [H|H];
    [exact (leading_dot_pieces name H)|exact (trailing_dot_pieces name H)].
Qed.

Lemma dot_names_have_no_extension_witness :
  process_lines [] [L "[1] .gitignore"] = Ok [mkFileEntry (L ".gitignore") 1 []] /\
  extension (mkFileEntry (L ".gitignore") 1 []) = [] /\
  process_lines [] [L "[1] file."] = Ok [mkFileEntry (L "file.") 1 []] /\
  extension (mkFileEntry (L "file.") 1 []) = [].
Proof.
  split; [vm_compute; reflexivity|]. split.
  - apply (dot_names_have_no_extension [] (L "[1] .gitignore") [] (L "1")
             (L ".gitignore") _ []);
      [reflexivity|left; reflexivity|vm_compute; reflexivity].
  - split; [vm_compute; reflexivity|].
    apply (dot_names_have_no_extension [] (L "[1] file.") [] (L "1")
             (L "file.") _ []);
      [reflexivity|right; reflexivity|vm_compute; reflexivity].
Defined.

(** ** Facts about the binary64 model *)

Lemma scaled_eq (N D e : Z) :
  scaled N D e = (N * 2 ^ Z.max (- e) 0, D * 2 ^ Z.max e 0).
Proof.
  unfold scaled. destruct (Z.leb_spec 0 e).
  - rewrite (Z.max_r (- e) 0), (Z.max_l e 0) by lia. f_equal. ring.
  - rewrite (Z.max_l (- e) 0), (Z.max_r e 0) by lia. f_equal. ring.
Qed.

Lemma pow_max_shift (e e' : Z) : e <= e' ->
  2 ^ Z.max (- e) 0 * 2 ^ Z.max e' 0
  = 2 ^ Z.max (- e') 0 * 2 ^ Z.max e 0 * 2 ^ (e' - e).
Proof.
  intros H. rewrite <- !Z.pow_add_r by lia. f_equal. lia.
Qed.

(** Moving to a larger exponent never makes the quotient larger. *)
Lemma scaled_lt_mono (N D K e e' : Z) : 0 <= N -> 0 < D -> 0 < K -> e <= e' ->
  N * 2 ^ Z.max (- e) 0 < K * (D * 2 ^ Z.max e 0) ->
  N * 2 ^ Z.max (- e') 0 < K * (D * 2 ^ Z.max e' 0).
Proof.
  intros HN HD HK Hle Hlt.
  pose proof (pow_max_shift e e' Hle) as Hs.
  assert (P1 : 0 < 2 ^ Z.max (- e) 0) by (apply Z.pow_pos_nonneg; lia).
  assert (P2 : 0 < 2 ^ Z.max e' 0) by (apply Z.pow_pos_nonneg; lia).
  assert (P3 : 0 < 2 ^ Z.max (- e') 0) by (apply Z.pow_pos_nonneg; lia).
  assert (P4 : 0 < 2 ^ Z.max e 0) by (apply Z.pow_pos_nonneg; lia).
  assert (P5 : 0 < 2 ^ (e' - e)) by (apply Z.pow_pos_nonneg; lia).
  set (A := 2 ^ Z.max (- e) 0) in *. set (B' := 2 ^ Z.max e' 0) in *.
  set (A' := 2 ^ Z.max (- e') 0) in *. set (B := 2 ^ Z.max e 0) in *.
  set (S := 2 ^ (e' - e)) in *.
  assert (H1 : N * A * (A' * S) < K * (D * B) * (A' * S))
    by (apply Z.mul_lt_mono_pos_r; [nia|exact Hlt]).
  replace (K * (D * B) * (A' * S)) with (A * (K * (D * B'))) in H1
    by (transitivity (K * D * (A' * B * S)); [rewrite <- Hs|]; ring).
  replace (N * A * (A' * S)) with (A * (N * A' * S)) in H1 by ring.
  apply Z.mul_lt_mono_pos_l in H1; [|exact P1].
  assert (H2 : N * A' <= N * A' * S).
  { rewrite <- (Z.mul_1_r (N * A')) at 1. apply Z.mul_le_mono_nonneg_l; nia. }
  lia.
Qed.

(** At the first exponent tried, the quotient is below [2^53]. *)
Lemma first_exponent_bound (N D : Z) : 0 < N -> 0 < D ->
  let e0 := Z.log2 N - Z.log2 D - 52 in
  N * 2 ^ Z.max (- e0) 0 < 2 ^ 53 * (D * 2 ^ Z.max e0 0).
Proof.
  intros HN HD e0.
  destruct (Z.log2_spec N HN) as [_ HN2]. destruct (Z.log2_spec D HD) as [HD1 _].
  rewrite <- Z.add_1_r in HN2.
  assert (Hl : 0 <= Z.log2 N) by apply Z.log2_nonneg.
  assert (Hl' : 0 <= Z.log2 D) by apply Z.log2_nonneg.
  assert (E : 2 ^ (Z.log2 N + 1) * 2 ^ Z.max (- e0) 0
              = 2 ^ 53 * (2 ^ Z.log2 D * 2 ^ Z.max e0 0)).
  { rewrite <- !Z.pow_add_r by lia. f_equal. unfold e0. lia. }
  assert (P1 : 0 < 2 ^ Z.max (- e0) 0) by (apply Z.pow_pos_nonneg; lia).
  assert (P2 : 0 < 2 ^ Z.max e0 0) by (apply Z.pow_pos_nonneg; lia).
  nia.
Qed.

Lemma round_ratio_bounds (N D m e : Z) : 0 < D ->
  round_ratio N D = Fin m e -> 0 <= m < 2 ^ 53 /\ -1074 <= e.
Proof.
  intros HD H. unfold round_ratio in H.
  destruct (Z.leb_spec N 0) as [HN|HN].
  { injection H as <- <-. lia. }
  rewrite !scaled_eq in H. cbv beta iota zeta in H.
  set (e0 := Z.log2 N - Z.log2 D - 52) in H.
  pose proof (first_exponent_bound N D HN HD) as B0. cbv zeta in B0. fold e0 in B0.
  set (e1 := if N * 2 ^ Z.max (- e0) 0 / (D * 2 ^ Z.max e0 0) <? 2 ^ 52
             then e0 - 1 else e0) in H.
  assert (B1 : N * 2 ^ Z.max (- e1) 0 < 2 ^ 53 * (D * 2 ^ Z.max e1 0)).
  { unfold e1. destruct (Z.ltb_spec (N * 2 ^ Z.max (- e0) 0 / (D * 2 ^ Z.max e0 0))
                                   (2 ^ 52)) as [Hq|Hq]; [|exact B0].
    assert (P : 0 < D * 2 ^ Z.max e0 0)
      by (apply Z.mul_pos_pos; [lia|apply Z.pow_pos_nonneg; lia]).
    assert (Hlt : N * 2 ^ Z.max (- e0) 0 < 2 ^ 52 * (D * 2 ^ Z.max e0 0)).
    { destruct (Z.lt_ge_cases (N * 2 ^ Z.max (- e0) 0) (2 ^ 52 * (D * 2 ^ Z.max e0 0)))
        as [Hc|Hc]; [exact Hc|].
      assert (2 ^ 52 <= N * 2 ^ Z.max (- e0) 0 / (D * 2 ^ Z.max e0 0))
        by (apply Z.div_le_lower_bound; [exact P|lia]).
      lia. }
    pose proof (pow_max_shift (e0 - 1) e0 ltac:(lia)) as Hs.
    replace (e0 - (e0 - 1)) with 1 in Hs by lia.
    assert (P1 : 0 < 2 ^ Z.max (- (e0 - 1)) 0) by (apply Z.pow_pos_nonneg; lia).
    assert (P3 : 0 < 2 ^ Z.max (- e0) 0) by (apply Z.pow_pos_nonneg; lia).
    assert (P2 : 0 < 2 ^ Z.max (e0 - 1) 0) by (apply Z.pow_pos_nonneg; lia).
    assert (P4 : 0 < 2 ^ Z.max e0 0) by (apply Z.pow_pos_nonneg; lia).
    change (2 ^ 53) with (2 * 2 ^ 52). nia. }
  set (e2 := Z.max e1 (-1074)) in H.
  assert (B2 : N * 2 ^ Z.max (- e2) 0 < 2 ^ 53 * (D * 2 ^ Z.max e2 0)).
  { apply (scaled_lt_mono N D (2 ^ 53) e1 e2); [lia|lia|lia|unfold e2; lia|exact B1]. }
  set (n := N * 2 ^ Z.max (- e2) 0) in H, B2.
  set (d := D * 2 ^ Z.max e2 0) in H, B2.
  assert (Pd : 0 < d) by (apply Z.mul_pos_pos; [lia|apply Z.pow_pos_nonneg; lia]).
  assert (Pn : 0 <= n) by (apply Z.mul_nonneg_nonneg; [lia|apply Z.pow_nonneg; lia]).
  assert (Hq : 0 <= n / d < 2 ^ 53).
  { split; [apply Z.div_pos; lia|apply Z.div_lt_upper_bound; lia]. }
  set (q := n / d) in H, Hq.
  set (q' := if d <? 2 * (n mod d) then q + 1
             else if 2 * (n mod d) =? d then (if Z.odd q then q + 1 else q)
             else q) in H.
  assert (Hq' : 0 <= q' <= 2 ^ 53).
  { unfold q'. destruct (d <? 2 * (n mod d)); [lia|].
    destruct (2 * (n mod d) =? d); [destruct (Z.odd q)|]; lia. }
  destruct (Z.eqb_spec q' (2 ^ 53)) as [Heq|Hne].
  - destruct (1024 <=? Z.log2 (2 ^ 52) + (e2 + 1)); [discriminate|].
    injection H as <- <-. unfold e2. lia.
  - destruct (1024 <=? Z.log2 q' + e2); [discriminate|].
    injection H as <- <-. unfold e2. lia.
Qed.

Lemma div_mod_exact (n d Q : Z) : 0 < d -> n = d * Q -> n / d = Q /\ n mod d = 0.
Proof.
  intros Hd ->. rewrite Z.mul_comm. split.
  - apply Z.div_mul. lia.
  - apply Z.mod_mul. lia.
Qed.

(** A value [M * 2^(a - b)] that binary64 represents is converted exactly:
    the result is [M] shifted left by some [j], with the exponent lowered
    by [j]. *)
Lemma round_ratio_exact (M a b : Z) :
  0 < M < 2 ^ 53 -> 0 <= a -> 0 <= b -> -1074 <= a - b ->
  Z.log2 M + (a - b) < 1024 ->
  exists j, 0 <= j /\ round_ratio (M * 2 ^ a) (2 ^ b) = Fin (M * 2 ^ j) (a - b - j).
Proof.
  intros HM Ha Hb Hlo Hhi.
  assert (HlM : 0 <= Z.log2 M <= 52).
  { split; [apply Z.log2_nonneg|]. apply Z.lt_succ_r, Z.log2_lt_pow2; lia. }
  destruct (Z.log2_spec M ltac:(lia)) as [HM1 HM2]. rewrite <- Z.add_1_r in HM2.
  assert (Pa : 0 < 2 ^ a) by (apply Z.pow_pos_nonneg; lia).
  unfold round_ratio.
  destruct (Z.leb_spec (M * 2 ^ a) 0) as [H0|_]; [nia|].
  rewrite !scaled_eq. cbv beta iota zeta.
  rewrite Z.log2_mul_pow2, Z.log2_pow2 by lia.
  set (e0 := a + Z.log2 M - b - 52).
  set (Q0 := M * 2 ^ (52 - Z.log2 M)).
  assert (PQ : 2 ^ 52 <= Q0 < 2 ^ 53).
  { unfold Q0. replace 52 with (Z.log2 M + (52 - Z.log2 M)) at 1 by lia.
    replace 53 with (Z.log2 M + 1 + (52 - Z.log2 M)) by lia.
    rewrite (Z.pow_add_r 2 (Z.log2 M)), (Z.pow_add_r 2 (Z.log2 M + 1)) by lia.
    assert (0 < 2 ^ (52 - Z.log2 M)) by (apply Z.pow_pos_nonneg; lia).
    split; [apply Z.mul_le_mono_nonneg_r|apply Z.mul_lt_mono_pos_r]; lia. }
  assert (E0 : M * 2 ^ a * 2 ^ Z.max (- e0) 0 = 2 ^ b * 2 ^ Z.max e0 0 * Q0).
  { unfold Q0. rewrite Z.mul_assoc, (Z.mul_comm _ M), <- !Z.mul_assoc.
    f_equal. rewrite <- !Z.pow_add_r by lia. f_equal. unfold e0. lia. }
  assert (Pd0 : 0 < 2 ^ b * 2 ^ Z.max e0 0)
    by (apply Z.mul_pos_pos; apply Z.pow_pos_nonneg; lia).
  destruct (div_mod_exact _ _ _ Pd0 E0) as [Dq0 _].
  rewrite Dq0.
  destruct (Z.ltb_spec Q0 (2 ^ 52)) as [Hc|_]; [lia|].
  destruct (Z.max_spec e0 (-1074)) as [[Hlt ->]|[Hge ->]].
  - (* subnormal range *)
    set (j := a - b + 1074).
    assert (E : M * 2 ^ a * 2 ^ Z.max (- -1074) 0 = 2 ^ b * 2 ^ Z.max (-1074) 0 * (M * 2 ^ j)).
    { rewrite Z.mul_assoc, (Z.mul_comm _ M), <- !Z.mul_assoc.
      f_equal. rewrite <- !Z.pow_add_r by lia. f_equal. unfold j. lia. }
    assert (Pd : 0 < 2 ^ b * 2 ^ Z.max (-1074) 0)
      by (apply Z.mul_pos_pos; apply Z.pow_pos_nonneg; lia).
    destruct (div_mod_exact _ _ _ Pd E) as [Dq Mq].
    rewrite Dq, Mq. cbn [Z.mul].
    assert (Pj : M * 2 ^ j < 2 ^ 52).
    { replace 52 with (Z.log2 M + 1 + (52 - Z.log2 M - 1)) by lia.
      rewrite (Z.pow_add_r 2 (Z.log2 M + 1)) by (unfold e0, j in *; lia).
      assert (2 ^ j <= 2 ^ (52 - Z.log2 M - 1))
        by (apply Z.pow_le_mono_r; unfold e0, j in *; lia).
      assert (0 < 2 ^ j) by (apply Z.pow_pos_nonneg; unfold j; lia).
      apply Z.lt_le_trans with (2 ^ (Z.log2 M + 1) * 2 ^ j).
      - apply Z.mul_lt_mono_pos_r; lia.
      - apply Z.mul_le_mono_nonneg_l; [apply Z.pow_nonneg; lia|assumption]. }
    destruct (Z.ltb_spec (2 ^ b * 2 ^ Z.max (-1074) 0) 0); [lia|].
    destruct (Z.eqb_spec 0 (2 ^ b * 2 ^ Z.max (-1074) 0)); [lia|].
    destruct (Z.eqb_spec (M * 2 ^ j) (2 ^ 53)); [lia|].
    rewrite Z.log2_mul_pow2 by (unfold j; lia).
    destruct (Z.leb_spec 1024 (j + Z.log2 M + -1074)); [unfold j in *; lia|].
    exists j. split; [unfold j; lia|]. f_equal. unfold j. lia.
  - (* normal range *)
    destruct (div_mod_exact _ _ _ Pd0 E0) as [_ Mq0].
    rewrite Mq0, Dq0. cbn [Z.mul].
    destruct (Z.ltb_spec (2 ^ b * 2 ^ Z.max e0 0) 0); [lia|].
    destruct (Z.eqb_spec 0 (2 ^ b * 2 ^ Z.max e0 0)); [lia|].
    destruct (Z.eqb_spec Q0 (2 ^ 53)); [lia|].
    assert (Hl : Z.log2 Q0 = 52 - Z.log2 M + Z.log2 M)
      by (unfold Q0; apply Z.log2_mul_pow2; lia).
    rewrite Hl.
    destruct (Z.leb_spec 1024 (52 - Z.log2 M + Z.log2 M + e0)); [unfold e0 in *; lia|].
    exists (52 - Z.log2 M). split; [lia|]. unfold Q0. f_equal. unfold e0. lia.
Qed.

Lemma shiftl_mul_pow2_shift (M j k : Z) : 0 <= j ->
  Z.shiftl (M * 2 ^ j) k = Z.shiftl M (j + k).
Proof.
  intros Hj. rewrite <- Z.shiftl_mul_pow2 by exact Hj.
  rewrite Z.shiftl_shiftl by exact Hj. reflexivity.
Qed.

(** Multiplying a double by [2^s] is exact below [2^1024]. *)
Lemma dbl_mul_pow2_exact (m e s : Z) :
  0 <= m < 2 ^ 53 -> -1074 <= e -> 0 <= s -> Z.shiftl m (e + s) < 2 ^ 1024 ->
  py_int (dbl_mul_int (Fin m e) (2 ^ s)) = Ok (Z.shiftl m (e + s)).
Proof.
  intros Hm He Hs Hov.
  destruct (Z.eq_dec m 0) as [->|Hm0].
  { unfold dbl_mul_int. rewrite Z.shiftl_0_l.
    destruct (0 <=? e); reflexivity. }
  assert (Hlog : Z.log2 m + (e + s) < 1024).
  { destruct (Z.leb_spec 0 (e + s)) as [Hes|Hes].
    - rewrite Z.shiftl_mul_pow2 in Hov by exact Hes.
      destruct (Z.log2_spec m ltac:(lia)) as [H1 _].
      apply (Z.pow_lt_mono_r_iff 2 _ 1024); [lia|lia|].
      rewrite Z.pow_add_r by (try apply Z.log2_nonneg; lia).
      apply Z.le_lt_trans with (m * 2 ^ (e + s)); [|exact Hov].
      apply Z.mul_le_mono_nonneg_r; [apply Z.pow_nonneg; lia|exact H1].
    - assert (Z.log2 m < 53) by (apply Z.log2_lt_pow2; lia). lia. }
  unfold dbl_mul_int.
  destruct (Z.leb_spec 0 e) as [He0|He0].
  - rewrite <- Z.mul_assoc, <- Z.pow_add_r by lia.
    change 1 with (2 ^ 0).
    destruct (round_ratio_exact m (s + e) 0 ltac:(lia) ltac:(lia) ltac:(lia)
                ltac:(lia) ltac:(lia)) as (j & Hj & ->).
    cbn [py_int]. rewrite shiftl_mul_pow2_shift by exact Hj. f_equal. f_equal. lia.
  - destruct (round_ratio_exact m s (- e) ltac:(lia) ltac:(lia) ltac:(lia)
                ltac:(lia) ltac:(lia)) as (j & Hj & ->).
    cbn [py_int]. rewrite shiftl_mul_pow2_shift by exact Hj. f_equal. f_equal. lia.
Qed.

(** The integer part of [m * 2^k] is [m] shifted by [k]. *)
Lemma Qfloor_shift (m k : Z) :
  Qfloor (inject_Z m * (2 # 1) ^ k) = Z.shiftl m k.
Proof.
  destruct (Z.leb_spec 0 k) as [Hk|Hk].
  - change (2 # 1) with (inject_Z 2). rewrite <- Zpower_Qpower by exact Hk.
    rewrite <- inject_Z_mult, Qfloor_Z, Z.shiftl_mul_pow2 by exact Hk.
    reflexivity.
  - replace k with (- (- k)) by lia.
    rewrite Z.shiftl_opp_r, Z.shiftr_div_pow2 by lia.
    rewrite Zdiv_Qdiv. apply Qfloor_comp.
    rewrite Qpower_opp. change (2 # 1) with (inject_Z 2).
    rewrite <- Zpower_Qpower by lia. reflexivity.
Qed.

Lemma lstrip_no_space (s : list ascii) :
  forallb (fun c => negb (is_space c)) s = true -> lstrip s = s.
Proof.
  destruct s as [|c s]; cbn; [reflexivity|].
  intros H. apply andb_true_iff in H as [Hc _].
  apply negb_true_iff in Hc. rewrite Hc. reflexivity.
Qed.

Lemma strip_no_space (s : list ascii) :
  forallb (fun c => negb (is_space c)) s = true -> strip s = s.
Proof.
  intros H. unfold strip, rstrip. rewrite (lstrip_no_space s H).
  rewrite lstrip_no_space; [apply rev_involutive|].
  apply forallb_forall. intros c Hc. apply in_rev in Hc.
  exact (proj1 (forallb_forall _ s) H c Hc).
Qed.

Lemma takewhile_app (p : ascii -> bool) (s t : list ascii) :
  forallb p s = true -> takewhile p (s ++ t) = s ++ takewhile p t.
Proof.
  induction s as [|c s IH]; cbn; [reflexivity|].
  intros H. apply andb_true_iff in H as [Hc Hs]. rewrite Hc, IH by exact Hs.
  reflexivity.
Qed.

Lemma skipwhile_app (p : ascii -> bool) (s t : list ascii) :
  forallb p s = true -> skipwhile p (s ++ t) = skipwhile p t.
Proof.
  induction s as [|c s IH]; cbn; [reflexivity|].
  intros H. apply andb_true_iff in H as [Hc Hs]. rewrite Hc. exact (IH Hs).
Qed.

Lemma float_of_string_bounds (s : list ascii) (m e : Z) :
  float_of_string s = Ok (Fin m e) -> 0 <= m < 2 ^ 53 /\ -1074 <= e.
Proof.
  unfold float_of_string.
  destruct (skipwhile is_digit s) as [|c frac].
  - destruct (Nat.eqb _ 0); [discriminate|].
    intros H. injection H as H. exact (round_ratio_bounds _ 1 m e ltac:(lia) H).
  - destruct (negb (Ascii.eqb c ".")); [discriminate|].
    destruct (negb (forallb is_digit frac)); [discriminate|].
    destruct (Nat.eqb _ 0); [discriminate|].
    intros H. injection H as H. refine (round_ratio_bounds _ _ m e _ H).
    apply Z.pow_pos_nonneg; lia.
Qed.

(** The unit letter and the optional [B] after the number. *)
Definition unit_suffix (unit : option ascii) (b : bool) : list ascii :=
  match unit with Some u => [u] | None => [] end ++ (if b then ["B"%char] else []).

(** The multiplier of a unit as the spec lists it: [1024^1] for [K],
    [1024^2] for [M], [1024^3] for [G], [1024^4] for [T], 1 without unit. *)
Definition spec_unit_multiplier (unit : option ascii) : Z :=
  match unit with
  | None => 1
  | Some u =>
      if Ascii.eqb u "K" then 1024 ^ 1
      else if Ascii.eqb u "M" then 1024 ^ 2
      else if Ascii.eqb u "G" then 1024 ^ 3
      else 1024 ^ 4
  end.

Lemma digit_or_dot_not_space (c : ascii) :
  is_digit_or_dot c = true -> is_space c = false.
Proof.
  unfold is_digit_or_dot, is_digit, is_space, code. intros H.
  apply orb_true_iff in H as [H|H].
  - apply andb_true_iff in H as [H1 H2]. apply Nat.leb_le in H1, H2.
    apply orb_false_iff. split; apply andb_false_iff; right; apply Nat.leb_gt; lia.
  - apply Ascii.eqb_eq in H. subst c. reflexivity.
Qed.

Lemma is_unit_cases (u : ascii) :
  is_unit u = true -> u = "K"%char \/ u = "M"%char \/ u = "G"%char \/ u = "T"%char.
Proof.
  unfold is_unit. intros H.
  repeat (apply orb_true_iff in H as [H|H]); apply Ascii.eqb_eq in H; tauto.
Qed.

Lemma Q_scale (m e s : Z) : 0 <= s ->
  inject_Z m * (2 # 1) ^ e * inject_Z (2 ^ s) == inject_Z m * (2 # 1) ^ (e + s).
Proof.
  intros Hs. rewrite Zpower_Qpower by exact Hs. change (inject_Z 2) with (2 # 1).
  rewrite Qpower_plus by (intros H; discriminate H).
  rewrite Qmult_assoc. reflexivity.
Qed.

Lemma size_match_token (value : list ascii) (unit : option ascii) (b : bool) :
  value <> [] -> forallb is_digit_or_dot value = true ->
  match unit with Some u => is_unit u = true | None => True end ->
  size_match (value ++ unit_suffix unit b) = Some (value, unit).
Proof.
  intros Hne Hdd Hunit. unfold size_match.
  rewrite takewhile_app, skipwhile_app by exact Hdd.
  destruct value as [|c v]; [contradiction|].
  destruct unit as [u|].
  - destruct (is_unit_cases u Hunit) as [-> | [-> | [-> | ->]]]; destruct b;
      cbn; rewrite ?app_nil_r; reflexivity.
  - destruct b; cbn; rewrite ?app_nil_r; reflexivity.
Qed.

(** C6: [parse_file_size] gives 4404019 for ["4.2M"], 512 for ["512"],
    1073741824 for ["1G"], 0 for ["garbage"] and 512 for ["512B"]; and for
    every number token (digits and dots that [float()] accepts, with the
    double value [m * 2^e]) followed by an optional unit and an optional
    [B], the result is the integer part of that value times [1024^k] for
    the unit's [k], as long as the product stays below [2^1024]. *)
Theorem parse_file_size_values :
  parse_file_size (L "4.2M") = Ok 4404019 /\
  parse_file_size (L "512") = Ok 512 /\
  parse_file_size (L "1G") = Ok 1073741824 /\
  parse_file_size (L "garbage") = Ok 0 /\
  parse_file_size (L "512B") = Ok 512 /\
  forall (value : list ascii) (unit : option ascii) (b : bool) (m e : Z),
    value <> [] -> forallb is_digit_or_dot value = true ->
    match unit with Some u => is_unit u = true | None => True end ->
    float_of_string value = Ok (Fin m e) ->
    Qfloor (inject_Z m * (2 # 1) ^ e * inject_Z (spec_unit_multiplier unit))
      < 2 ^ 1024 ->
    parse_file_size (value ++ unit_suffix unit b)
    = Ok (Qfloor (inject_Z m * (2 # 1) ^ e * inject_Z (spec_unit_multiplier unit))).
Proof.
  split; [vm_compute; reflexivity|]. split; [vm_compute; reflexivity|].
  split; [vm_compute; reflexivity|]. split; [vm_compute; reflexivity|].
  split; [vm_compute; reflexivity|].
  intros value unit b m e Hne Hdd Hunit Hfl Hov.
  destruct (float_of_string_bounds value m e Hfl) as [Hm He].
  unfold parse_file_size.
  rewrite strip_no_space.
  2:{ rewrite forallb_app. apply andb_true_iff. split.
      - apply forallb_forall. intros c Hc.
        rewrite (digit_or_dot_not_space c (proj1 (forallb_forall _ _) Hdd c Hc)).
        reflexivity.
      - destruct unit as [u|]; [destruct (is_unit_cases u Hunit) as [-> | [-> | [-> | ->]]]|];
          destruct b; reflexivity. }
  rewrite (size_match_token value unit b Hne Hdd Hunit), Hfl. cbn [bind].
  assert (Hmult : exists s, 0 <= s /\ spec_unit_multiplier unit = 2 ^ s /\
            (py_int (match unit with
                     | Some u => dbl_mul_int (Fin m e) (SIZE_MULTIPLIERS u)
                     | None => Fin m e
                     end) = py_int (dbl_mul_int (Fin m e) (2 ^ s))
             \/ (unit = None /\ s = 0))).
  { destruct unit as [u|].
    - destruct (is_unit_cases u Hunit) as [-> | [-> | [-> | ->]]];
        [exists 10|exists 20|exists 30|exists 40]; (split; [lia|]);
        (split; [reflexivity|left; reflexivity]).
    - exists 0. split; [lia|]. split; [reflexivity|right; auto]. }
  destruct Hmult as (s & Hs & Hspec & Hcase).
  rewrite Hspec in Hov |- *.
  rewrite (Qfloor_comp _ _ (Q_scale m e s Hs)) in Hov |- *.
  rewrite Qfloor_shift in Hov |- *.
  destruct Hcase as [Hcode|[-> ->]].
  - rewrite Hcode. apply dbl_mul_pow2_exact; assumption.
  - cbn [py_int]. rewrite Z.add_0_r. reflexivity.
Qed.

Lemma parse_file_size_values_witness :
  parse_file_size (L "0.7K") = Ok 716.
Proof.
  destruct parse_file_size_values as (_ & _ & _ & _ & _ & H).
  refine (eq_trans (H (L "0.7") (Some "K"%char) false 6305039478318694 (-53)
                       ltac:(discriminate) eq_refl eq_refl
                       ltac:(vm_compute; reflexivity) ltac:(vm_compute; reflexivity)) _).
  vm_compute. reflexivity.
Defined.

(** ** The frequencies of the word cloud and the extension statistics *)

Lemma list_eqb_eq (a b : list ascii) : list_eqb a b = true <-> a = b.
Proof.
  unfold list_eqb. destruct (list_eq_dec ascii_dec a b); split; intros H;
    first [reflexivity | discriminate | assumption | contradiction].
Qed.

Lemma list_eqb_neq (a b : list ascii) : list_eqb a b = false <-> a <> b.
Proof.
  unfold list_eqb. destruct (list_eq_dec ascii_dec a b); split; intros H;
    first [reflexivity | discriminate | assumption | contradiction].
Qed.

Lemma dict_set_get_incr (k : list ascii) (d : list (list ascii * nat)) :
  dict_set k (dict_get k d 0 + 1) d = dict_incr k d.
Proof.
  unfold dict_get. induction d as [|[k' v] d IH]; cbn; [reflexivity|].
  destruct (list_eqb k k').
  - rewrite Nat.add_1_r. reflexivity.
  - rewrite IH. reflexivity.
Qed.

Lemma wordcloud_step_incr (counts : list (list ascii * nat)) (e : FileEntry) :
  wordcloud_step counts e
  = match extension e with [] => counts | ext => dict_incr ext counts end.
Proof.
  unfold wordcloud_step. destruct (extension e); [reflexivity|].
  apply dict_set_get_incr.
Qed.

Lemma extension_stats_fold (es : list FileEntry) (a : AnalysisResult) :
  extension_stats (fold_left analyze_step es a)
  = fold_left wordcloud_step es (extension_stats a).
Proof.
  revert a; induction es as [|e es IH]; intros a; cbn [fold_left]; [reflexivity|].
  rewrite IH. f_equal. rewrite wordcloud_step_incr. reflexivity.
Qed.

Lemma dict_find_incr (k k' : list ascii) (d : list (list ascii * nat)) :
  dict_find k (dict_incr k' d)
  = if list_eqb k k'
    then Some (S (match dict_find k d with Some v => v | None => 0 end))
    else dict_find k d.
Proof.
  induction d as [|[k'' v] d IH]; cbn.
  - destruct (list_eqb k k'); reflexivity.
  - destruct (list_eqb k' k'') eqn:E1.
    + apply list_eqb_eq in E1. subst k''. cbn. destruct (list_eqb k k'); reflexivity.
    + cbn. rewrite IH. destruct (list_eqb k k'') eqn:E2; [|reflexivity].
      apply list_eqb_eq in E2. subst k''. apply list_eqb_neq in E1.
      rewrite (proj2 (list_eqb_neq k k') (fun H => E1 (eq_sym H))). reflexivity.
Qed.

Lemma count_extension_cons (k : list ascii) (e : FileEntry) (es : list FileEntry) :
  count_extension k (e :: es)
  = if list_eqb (extension e) k then S (count_extension k es) else count_extension k es.
Proof. unfold count_extension. cbn. destruct (list_eqb (extension e) k); reflexivity. Qed.

Lemma dict_find_fold (k : list ascii) (es : list FileEntry)
  (d : list (list ascii * nat)) : k <> [] ->
  dict_find k (fold_left wordcloud_step es d)
  = match dict_find k d, count_extension k es with
    | Some v, n => Some (v + n)%nat
    | None, O => None
    | None, n => Some n
    end.
Proof.
  intros Hk. revert d; induction es as [|e es IH]; intros d; cbn [fold_left].
  - unfold count_extension. cbn. destruct (dict_find k d); [rewrite Nat.add_0_r|]; reflexivity.
  - rewrite IH, wordcloud_step_incr, count_extension_cons.
    destruct (list_eqb (extension e) k) eqn:E.
    + apply list_eqb_eq in E. rewrite E. destruct k as [|c r]; [contradiction|].
      rewrite dict_find_incr, (proj2 (list_eqb_eq (c :: r) (c :: r)) eq_refl).
      destruct (dict_find (c :: r) d); f_equal; lia.
    + destruct (extension e) as [|c r]; [reflexivity|].
      rewrite dict_find_incr.
      rewrite (proj2 (list_eqb_neq k (c :: r))); [reflexivity|].
      intros H. subst k. apply list_eqb_neq in E. exact (E eq_refl).
Qed.

Lemma dict_find_nil_fold (es : list FileEntry) (d : list (list ascii * nat)) :
  dict_find [] (fold_left wordcloud_step es d) = dict_find [] d.
Proof.
  revert d; induction es as [|e es IH]; intros d; cbn [fold_left]; [reflexivity|].
  rewrite IH, wordcloud_step_incr. destruct (extension e) as [|c r]; [reflexivity|].
  rewrite dict_find_incr, (proj2 (list_eqb_neq [] (c :: r))); [reflexivity|discriminate].
Qed.

Lemma dict_find_In (k : list ascii) (d : list (list ascii * nat)) :
  dict_find k d <> None <-> In k (map fst d).
Proof.
  induction d as [|[k' v] d IH]; cbn.
  - split; [intros H; apply H; reflexivity|intros []].
  - destruct (list_eqb k k') eqn:E.
    + apply list_eqb_eq in E. subst k'. split; [left; reflexivity|discriminate].
    + apply list_eqb_neq in E. rewrite IH. split; [right; assumption|].
      intros [H|H]; [congruence|assumption].
Qed.

Lemma count_extension_pos (k : list ascii) (es : list FileEntry) :
  (0 < count_extension k es)%nat <-> exists e, In e es /\ extension e = k.
Proof.
  unfold count_extension. split.
  - destruct (filter (fun e => list_eqb (extension e) k) es) as [|e l] eqn:F;
      cbn; [lia|]. intros _. exists e.
    assert (H : In e (filter (fun e => list_eqb (extension e) k) es))
      by (rewrite F; left; reflexivity).
    apply filter_In in H as [H1 H2]. apply list_eqb_eq in H2. auto.
  - intros (e & Hin & He).
    destruct (filter (fun e => list_eqb (extension e) k) es) as [|x l] eqn:F;
      cbn; [|lia].
    assert (H : In e (filter (fun e => list_eqb (extension e) k) es))
      by (apply filter_In; split; [exact Hin|apply list_eqb_eq; exact He]).
    rewrite F in H. destruct H.
Qed.

Lemma stats_keys_In (k : list ascii) (es : list FileEntry) :
  In k (map fst (extension_stats (analyze_patterns es)))
  <-> k <> [] /\ exists e, In e es /\ extension e = k.
Proof.
  unfold analyze_patterns. rewrite extension_stats_fold. cbn [extension_stats].
  rewrite <- dict_find_In. destruct k as [|c r].
  - rewrite dict_find_nil_fold. cbn. split; [intros H; exfalso; apply H; reflexivity|].
    intros [H _]. exfalso. apply H. reflexivity.
  - rewrite dict_find_fold by discriminate. cbn [dict_find].
    rewrite <- count_extension_pos.
    destruct (count_extension (c :: r) es) as [|n].
    + split; [intros H; exfalso; apply H; reflexivity|intros [_ H]; lia].
    + split; [intros _; split; [discriminate|lia]|discriminate].
Qed.

Lemma dict_incr_keys (k : list ascii) (d : list (list ascii * nat)) :
  map fst (dict_incr k d)
  = if existsb (list_eqb k) (map fst d) then map fst d else map fst d ++ [k].
Proof.
  induction d as [|[k' v] d IH]; cbn; [reflexivity|].
  destruct (list_eqb k k'); cbn; [reflexivity|].
  rewrite IH. destruct (existsb (list_eqb k) (map fst d)); reflexivity.
Qed.

Lemma dict_incr_NoDup (k : list ascii) (d : list (list ascii * nat)) :
  NoDup (map fst d) -> NoDup (map fst (dict_incr k d)).
Proof.
  intros H. rewrite dict_incr_keys.
  destruct (existsb (list_eqb k) (map fst d)) eqn:E; [exact H|].
  apply (Permutation_NoDup (Permutation_cons_append (map fst d) k)).
  constructor; [|exact H]. intros Hin.
  assert (existsb (list_eqb k) (map fst d) = true)
    by (apply existsb_exists; exists k; split; [exact Hin|apply list_eqb_eq; reflexivity]).
  congruence.
Qed.

Lemma wordcloud_fold_NoDup (es : list FileEntry) (d : list (list ascii * nat)) :
  NoDup (map fst d) -> NoDup (map fst (fold_left wordcloud_step es d)).
Proof.
  revert d; induction es as [|e es IH]; intros d H; cbn [fold_left]; [exact H|].
  apply IH. rewrite wordcloud_step_incr. destruct (extension e);
    [exact H|apply dict_incr_NoDup; exact H].
Qed.

Lemma fold_analyze_total_size (es : list FileEntry) (a : AnalysisResult) :
  total_size (fold_left analyze_step es a) = total_size a.
Proof.
  revert a; induction es as [|e es IH]; intros a; cbn [fold_left]; [reflexivity|].
  rewrite IH. reflexivity.
Qed.

Lemma sum_sizes_acc (es : list FileEntry) (acc : Z) :
  fold_left (fun acc e => acc + size e) es acc = acc + sum_sizes es.
Proof.
  unfold sum_sizes. revert acc; induction es as [|e es IH]; intros acc; cbn; [lia|].
  rewrite IH. rewrite (IH (size e)). lia.
Qed.

Lemma stats_get (k : list ascii) (es : list FileEntry) :
  dict_get k (extension_stats (analyze_patterns es)) 0
  = match k with [] => 0%nat | _ => count_extension k es end.
Proof.
  unfold analyze_patterns, dict_get. rewrite extension_stats_fold. cbn [extension_stats].
  destruct k as [|c r].
  - rewrite dict_find_nil_fold. reflexivity.
  - rewrite dict_find_fold by discriminate. cbn [dict_find].
    destruct (count_extension (c :: r) es); reflexivity.
Qed.

(** [generate_extension_wordcloud] counts the extensions exactly as
    [analyze_patterns] does: its [extension_counts] is the dict
    [extension_stats], with the same keys in the same order and the same
    values. *)
Theorem wordcloud_counts_are_extension_stats (entries : list FileEntry) :
  extension_counts entries = extension_stats (analyze_patterns entries).
Proof.
  unfold extension_counts, analyze_patterns. rewrite extension_stats_fold. reflexivity.
Qed.

(** In [extension_stats], the value of a key [k] is the number of entries
    whose extension is [k]; the empty extension is never a key, and neither
    is an extension no entry has. *)
Theorem extension_stats_lookup (entries : list FileEntry) (k : list ascii) :
  dict_find k (extension_stats (analyze_patterns entries))
  = if negb (Nat.eqb (List.length k) 0) && Nat.ltb 0 (count_extension k entries)
    then Some (count_extension k entries) else None.
Proof.
  unfold analyze_patterns. rewrite extension_stats_fold. cbn [extension_stats].
  destruct k as [|c r].
  - rewrite dict_find_nil_fold. reflexivity.
  - rewrite dict_find_fold by discriminate. cbn [dict_find].
    destruct (count_extension (c :: r) entries); reflexivity.
Qed.

(** The keys of [extension_stats] are pairwise distinct, and they are
    exactly the non-empty extensions of the entries. *)
Theorem extension_stats_keys (entries : list FileEntry) :
  NoDup (map fst (extension_stats (analyze_patterns entries))) /\
  forall k, In k (map fst (extension_stats (analyze_patterns entries)))
            <-> k <> [] /\ exists e, In e entries /\ extension e = k.
Proof.
  split; [|intros k; apply stats_keys_In].
  unfold analyze_patterns. rewrite extension_stats_fold.
  apply wordcloud_fold_NoDup. constructor.
Qed.

(** Analysing a concatenation of two entry lists adds up the results of
    the two parts: file counts, total sizes, each size bucket, and the count
    of every extension. *)
Theorem analyze_patterns_app (es1 es2 : list FileEntry) :
  let r := analyze_patterns (es1 ++ es2) in
  let r1 := analyze_patterns es1 in
  let r2 := analyze_patterns es2 in
  total_files r = (total_files r1 + total_files r2)%nat /\
  total_size r = total_size r1 + total_size r2 /\
  small (size_distribution r)
  = (small (size_distribution r1) + small (size_distribution r2))%nat /\
  medium (size_distribution r)
  = (medium (size_distribution r1) + medium (size_distribution r2))%nat /\
  large (size_distribution r)
  = (large (size_distribution r1) + large (size_distribution r2))%nat /\
  (forall k, dict_get k (extension_stats r) 0
             = (dict_get k (extension_stats r1) 0 + dict_get k (extension_stats r2) 0)%nat).
Proof.
  cbv zeta. split; [|split; [|split; [|split; [|split]]]].
  - unfold analyze_patterns. rewrite !(proj1 (fold_analyze_counts _ _)).
    cbn. apply length_app.
  - unfold analyze_patterns. rewrite !fold_analyze_total_size. cbn.
    unfold sum_sizes at 1. rewrite fold_left_app, sum_sizes_acc.
    unfold sum_sizes. lia.
  - unfold analyze_patterns. rewrite !(proj1 (fold_analyze_buckets _ _)). cbn.
    rewrite filter_app, length_app. reflexivity.
  - unfold analyze_patterns. rewrite !(proj1 (proj2 (fold_analyze_buckets _ _))). cbn.
    rewrite filter_app, length_app. reflexivity.
  - unfold analyze_patterns. rewrite !(proj2 (proj2 (fold_analyze_buckets _ _))). cbn.
    rewrite filter_app, length_app. reflexivity.
  - intros k. rewrite !stats_get. destruct k; [reflexivity|].
    unfold count_extension. rewrite filter_app, length_app. reflexivity.
Qed.

(** ** More of [parse_file_size] *)

Lemma dbl_mul_int_nonneg (m e n m' e' : Z) :
  dbl_mul_int (Fin m e) n = Fin m' e' -> 0 <= m'.
Proof.
  unfold dbl_mul_int. destruct (Z.leb_spec 0 e) as [He|He]; intros H.
  - exact (proj1 (proj1 (round_ratio_bounds _ 1 m' e' ltac:(lia) H))).
  - refine (proj1 (proj1 (round_ratio_bounds _ _ m' e' _ H))).
    apply Z.pow_pos_nonneg; lia.
Qed.

Lemma parse_file_size_ok_nonneg (size_str : list ascii) (n : Z) :
  parse_file_size size_str = Ok n -> 0 <= n.
Proof.
  unfold parse_file_size.
  destruct (size_match (strip size_str)) as [[v u]|].
  2:{ intros H. injection H as <-. lia. }
  destruct (float_of_string v) as [x|err] eqn:Hf; cbn [bind]; [|discriminate].
  destruct x as [m e|]; [|destruct u; discriminate].
  destruct u as [u|].
  - destruct (dbl_mul_int (Fin m e) (SIZE_MULTIPLIERS u)) as [m' e'|] eqn:Hd;
      [|discriminate].
    cbn. intros H. injection H as <-. apply Z.shiftl_nonneg.
    exact (dbl_mul_int_nonneg _ _ _ _ _ Hd).
  - cbn. intros H. injection H as <-. apply Z.shiftl_nonneg.
    exact (proj1 (proj1 (float_of_string_bounds _ _ _ Hf))).
Qed.

(** [parse_file_size] never gives a negative number of bytes. *)
Theorem parse_file_size_nonneg (size_str : list ascii) (n : Z)
  (Hok : parse_file_size size_str = Ok n) : 0 <= n.
Proof. exact (parse_file_size_ok_nonneg size_str n Hok). Qed.

Lemma parse_file_size_nonneg_witness :
  parse_file_size (L "1.5K") = Ok 1536 /\ 0 <= 1536.
Proof.
  split; [vm_compute; reflexivity|].
  exact (parse_file_size_nonneg (L "1.5K") 1536 ltac:(vm_compute; reflexivity)).
Defined.

Lemma takewhile_all (p : ascii -> bool) (s : list ascii) :
  forallb p s = true -> takewhile p s = s.
Proof.
  induction s as [|c s IH]; cbn; [reflexivity|].
  intros H. apply andb_true_iff in H as [Hc Hs]. rewrite Hc, IH by exact Hs.
  reflexivity.
Qed.

Lemma skipwhile_all (p : ascii -> bool) (s : list ascii) :
  forallb p s = true -> skipwhile p s = [].
Proof.
  induction s as [|c s IH]; cbn; [reflexivity|].
  intros H. apply andb_true_iff in H as [Hc Hs]. rewrite Hc. exact (IH Hs).
Qed.

Lemma digits_value_nonneg (s : list ascii) (acc : Z) :
  forallb is_digit s = true -> 0 <= acc -> 0 <= digits_value acc s.
Proof.
  revert acc; induction s as [|c s IH]; intros acc H Hacc; cbn [digits_value forallb] in *; [exact Hacc|].
  apply andb_true_iff in H as [Hc Hs]. apply IH; [exact Hs|].
  unfold is_digit in Hc. apply andb_true_iff in Hc as [Hc _].
  apply Nat.leb_le in Hc. unfold digit_value, code in *. lia.
Qed.

Lemma digits_to_digit_or_dot (s : list ascii) :
  forallb is_digit s = true -> forallb is_digit_or_dot s = true.
Proof.
  intros H. apply forallb_forall. intros c Hc.
  unfold is_digit_or_dot. rewrite (proj1 (forallb_forall _ s) H c Hc). reflexivity.
Qed.

Lemma token_no_space (value : list ascii) (unit : option ascii) (b : bool) :
  forallb is_digit_or_dot value = true ->
  match unit with Some u => is_unit u = true | None => True end ->
  forallb (fun c => negb (is_space c)) (value ++ unit_suffix unit b) = true.
Proof.
  intros Hdd Hunit. rewrite forallb_app. apply andb_true_iff. split.
  - apply forallb_forall. intros c Hc.
    rewrite (digit_or_dot_not_space c (proj1 (forallb_forall _ _) Hdd c Hc)).
    reflexivity.
  - destruct unit as [u|];
      [destruct (is_unit_cases u Hunit) as [-> | [-> | [-> | ->]]]|];
      destruct b; reflexivity.
Qed.

(** A plain integer below [2^53] followed by an optional unit letter and
    an optional [B] is converted exactly: the integer times the unit's
    entry of [SIZE_MULTIPLIERS], with no rounding. *)
Theorem parse_file_size_integer_exact (digits : list ascii) (unit : option ascii)
  (b : bool)
  (Hne : digits <> []) (Hdig : forallb is_digit digits = true)
  (Hunit : match unit with Some u => is_unit u = true | None => True end)
  (Hsmall : digits_value 0 digits < 2 ^ 53) :
  parse_file_size (digits ++ unit_suffix unit b)
  = Ok (digits_value 0 digits
        * match unit with Some u => SIZE_MULTIPLIERS u | None => 1 end).
Proof.
  pose proof (digits_to_digit_or_dot digits Hdig) as Hdd.
  unfold parse_file_size.
  rewrite (strip_no_space _ (token_no_space digits unit b Hdd Hunit)).
  rewrite (size_match_token digits unit b Hne Hdd Hunit).
  set (N := digits_value 0 digits) in *.
  assert (HN : 0 <= N) by (apply digits_value_nonneg; [exact Hdig|lia]).
  assert (Hfl : float_of_string digits = Ok (round_ratio N 1)).
  { unfold float_of_string. rewrite skipwhile_all, takewhile_all by exact Hdig.
    destruct digits as [|c r]; [contradiction|]. reflexivity. }
  rewrite Hfl. cbn [bind].
  assert (Hmult : exists s, 0 <= s <= 40 /\
            match unit with Some u => SIZE_MULTIPLIERS u | None => 1 end = 2 ^ s).
  { destruct unit as [u|].
    - destruct (is_unit_cases u Hunit) as [-> | [-> | [-> | ->]]];
        [exists 10|exists 20|exists 30|exists 40]; split; (lia || reflexivity).
    - exists 0. split; [lia|reflexivity]. }
  destruct Hmult as (s & Hs & Hm).
  destruct (Z.eq_dec N 0) as [H0|H0].
  { rewrite H0. unfold round_ratio at 1. cbn [Z.leb Z.compare].
    destruct unit as [u|]; [|reflexivity].
    unfold dbl_mul_int. cbn. reflexivity. }
  assert (HlN : Z.log2 N < 53) by (apply Z.log2_lt_pow2; lia).
  destruct (round_ratio_exact N 0 0 ltac:(lia) ltac:(lia) ltac:(lia) ltac:(lia)
              ltac:(lia)) as (j & Hj & R).
  rewrite Z.pow_0_r, Z.mul_1_r in R. rewrite R.
  destruct (round_ratio_bounds N 1 _ _ ltac:(lia) R) as [Hmb Heb].
  assert (Hshift : Z.shiftl (N * 2 ^ j) (0 - 0 - j + s) = N * 2 ^ s).
  { rewrite shiftl_mul_pow2_shift by exact Hj.
    rewrite Z.shiftl_mul_pow2 by lia. f_equal. f_equal. lia. }
  destruct unit as [u|].
  - rewrite Hm. rewrite dbl_mul_pow2_exact; [rewrite Hshift; reflexivity
                                             |exact Hmb|exact Heb|lia|].
    rewrite Hshift. apply Z.lt_le_trans with (2 ^ 53 * 2 ^ s).
    + apply Z.mul_lt_mono_pos_r; [apply Z.pow_pos_nonneg|]; lia.
    + rewrite <- Z.pow_add_r by lia. apply Z.pow_le_mono_r; lia.
  - cbn [py_int]. rewrite shiftl_mul_pow2_shift by exact Hj.
    rewrite Z.mul_1_r. replace (j + (0 - 0 - j)) with 0 by lia.
    rewrite Z.shiftl_0_r. reflexivity.
Qed.

Lemma parse_file_size_integer_exact_witness :
  parse_file_size (L "1536KB") = Ok 1572864.
Proof.
  refine (eq_trans (parse_file_size_integer_exact (L "1536") (Some "K"%char) true
                      ltac:(discriminate) eq_refl eq_refl
                      ltac:(vm_compute; reflexivity)) _).
  vm_compute. reflexivity.
Defined.

Lemma takewhile_skipwhile (p : ascii -> bool) (s : list ascii) :
  takewhile p s ++ skipwhile p s = s.
Proof.
  induction s as [|c s IH]; cbn; [reflexivity|].
  destruct (p c); cbn; [rewrite IH|]; reflexivity.
Qed.

Lemma takewhile_forallb (p : ascii -> bool) (s : list ascii) :
  forallb p (takewhile p s) = true.
Proof.
  induction s as [|c s IH]; cbn; [reflexivity|].
  destruct (p c) eqn:E; cbn; [rewrite E, IH|]; reflexivity.
Qed.

Lemma skipwhile_cons (p : ascii -> bool) (s : list ascii) (c : ascii) t :
  skipwhile p s = c :: t -> p c = false.
Proof.
  induction s as [|x s IH]; cbn; [discriminate|].
  destruct (p x) eqn:E; [exact IH|]. intros H. injection H as <- _. exact E.
Qed.

Lemma skipwhile_nil (p : ascii -> bool) (s : list ascii) :
  skipwhile p s = [] -> forallb p s = true.
Proof.
  induction s as [|x s IH]; cbn; [reflexivity|].
  destruct (p x); [exact IH|discriminate].
Qed.

Lemma digit_not_dot (c : ascii) : is_digit c = true -> Ascii.eqb c "." = false.
Proof.
  intros H. destruct (Ascii.eqb_spec c "."); [|reflexivity].
  subst c. vm_compute in H. discriminate.
Qed.

Lemma count_dots_digits (s : list ascii) :
  forallb is_digit s = true -> count_dots s = 0%nat.
Proof.
  unfold count_dots. induction s as [|c s IH]; cbn [forallb filter]; [reflexivity|].
  intros H. apply andb_true_iff in H as [Hc Hs]. rewrite digit_not_dot by exact Hc.
  exact (IH Hs).
Qed.

Lemma count_dots_app (s t : list ascii) :
  count_dots (s ++ t) = (count_dots s + count_dots t)%nat.
Proof. unfold count_dots. rewrite filter_app, length_app. reflexivity. Qed.

(** A text of digits and dots is all digits when it has no dot. *)
Lemma digits_iff_no_dot (s : list ascii) :
  forallb is_digit_or_dot s = true ->
  (forallb is_digit s = true <-> count_dots s = 0%nat).
Proof.
  unfold count_dots. induction s as [|c s IH]; cbn [forallb filter]; [tauto|].
  intros H. apply andb_true_iff in H as [Hc Hs].
  destruct (is_digit c) eqn:Hd.
  - rewrite digit_not_dot by exact Hd. exact (IH Hs).
  - unfold is_digit_or_dot in Hc. rewrite Hd in Hc. cbn in Hc. rewrite Hc.
    cbn [List.length]. split; [discriminate|lia].
Qed.

Lemma digits_exist (s : list ascii) :
  forallb is_digit s = true -> (existsb is_digit s = false <-> s = []).
Proof.
  destruct s as [|c s]; cbn; [tauto|]. intros H.
  apply andb_true_iff in H as [Hc _]. rewrite Hc. split; discriminate.
Qed.

(** [float()] on a text of digits and dots fails exactly when the text
    has no digit or more than one dot. *)
Lemma float_of_string_value_error (v : list ascii) :
  forallb is_digit_or_dot v = true ->
  (float_of_string v = Err ValueError <->
   existsb is_digit v = false \/ (2 <= count_dots v)%nat).
Proof.
  intros Hv.
  pose proof (takewhile_skipwhile is_digit v) as Hsplit.
  pose proof (takewhile_forallb is_digit v) as Hip.
  assert (Ed : existsb is_digit v
               = existsb is_digit (takewhile is_digit v)
                 || existsb is_digit (skipwhile is_digit v))
    by (rewrite <- existsb_app, Hsplit; reflexivity).
  assert (Ec : count_dots v = count_dots (skipwhile is_digit v)).
  { rewrite <- Hsplit at 1. rewrite count_dots_app, count_dots_digits by exact Hip.
    reflexivity. }
  assert (Hr : forallb is_digit_or_dot (skipwhile is_digit v) = true).
  { rewrite <- Hsplit in Hv. rewrite forallb_app in Hv.
    apply andb_true_iff in Hv as [_ Hv]. exact Hv. }
  assert (Hhead : forall c frac, skipwhile is_digit v = c :: frac -> is_digit c = false)
    by (intros c frac; apply skipwhile_cons).
  unfold float_of_string. rewrite Ed, Ec.
  set (ip := takewhile is_digit v) in *. clearbody ip.
  destruct (skipwhile is_digit v) as [|c frac] eqn:Erest.
  - cbn. rewrite orb_false_r. destruct ip as [|d ip'].
    + cbn. split; [intros _; left; reflexivity|reflexivity].
    + cbn in Hip |- *. apply andb_true_iff in Hip as [Hd _]. rewrite Hd.
      split; [discriminate|intros [H|H]; [discriminate|lia]].
  - pose proof (Hhead c frac eq_refl) as Hc.
    cbn [forallb] in Hr. apply andb_true_iff in Hr as [Hcd Hfrac].
    unfold is_digit_or_dot in Hcd. rewrite Hc in Hcd. cbn in Hcd.
    apply Ascii.eqb_eq in Hcd. subst c.
    change (negb (Ascii.eqb "." ".")) with false. cbv iota.
    assert (Edot : count_dots ("."%char :: frac) = S (count_dots frac))
      by reflexivity.
    rewrite Edot.
    cbn [existsb]. rewrite Hc. cbn [orb].
    destruct (forallb is_digit frac) eqn:Hf.
    + rewrite (proj1 (digits_iff_no_dot frac Hfrac) Hf). cbn [negb].
      destruct ip as [|d ip']; destruct frac as [|f frac'].
      * cbn. split; [intros _; left; reflexivity|reflexivity].
      * cbn in Hf |- *. apply andb_true_iff in Hf as [Hf _]. rewrite Hf.
        split; [discriminate|intros [H|H]; [discriminate|lia]].
      * cbn in Hip |- *. apply andb_true_iff in Hip as [Hd _]. rewrite Hd.
        split; [discriminate|intros [H|H]; [discriminate|lia]].
      * cbn in Hip |- *. apply andb_true_iff in Hip as [Hd _]. rewrite Hd.
        split; [discriminate|intros [H|H]; [discriminate|lia]].
    + cbn [negb]. split; [intros _; right|reflexivity].
      assert (count_dots frac <> 0%nat)
        by (intros H; apply (proj2 (digits_iff_no_dot frac Hfrac)) in H; congruence).
      lia.
Qed.

Lemma size_match_value (s v : list ascii) (u : option ascii) :
  size_match s = Some (v, u) -> v <> [] /\ forallb is_digit_or_dot v = true.
Proof.
  unfold size_match. pose proof (takewhile_forallb is_digit_or_dot s) as Hv.
  destruct (takewhile is_digit_or_dot s) as [|c v'] eqn:Ht; [discriminate|].
  intros H. assert (Hvv : v = c :: v').
  { destruct (skipwhile is_digit_or_dot s) as [|u1 [|u2 [|u3 r]]];
      [|destruct (is_unit u1); [|destruct (Ascii.eqb u1 "B")]
       |destruct (is_unit u1 && Ascii.eqb u2 "B")|];
      try discriminate; injection H; auto. }
  subst v. split; [discriminate|exact Hv].
Qed.

(** [parse_file_size] raises [ValueError] exactly when the stripped text
    matches the size pattern and the number group has no digit or more
    than one dot (as ["."], ["1.2.3"], ["..K"]); otherwise it returns or
    raises [OverflowError]. *)
Theorem parse_file_size_value_error (size_str : list ascii) :
  parse_file_size size_str = Err ValueError <->
  exists value unit, size_match (strip size_str) = Some (value, unit) /\
    (existsb is_digit value = false \/ (2 <= count_dots value)%nat).
Proof.
  unfold parse_file_size.
  destruct (size_match (strip size_str)) as [[v u]|] eqn:Hm.
  2:{ split; [discriminate|intros (v & u & H & _); discriminate]. }
  destruct (size_match_value _ _ _ Hm) as [_ Hdd].
  split.
  - intros H. exists v, u. split; [reflexivity|].
    apply (proj1 (float_of_string_value_error v Hdd)).
    destruct (float_of_string v) as [x|err] eqn:Hf; cbn [bind] in H.
    + exfalso. destruct u as [u|]; [destruct (dbl_mul_int x (SIZE_MULTIPLIERS u))|destruct x];
        discriminate.
    + injection H as ->. reflexivity.
  - intros (v' & u' & H & Herr). injection H as <- <-.
    rewrite (proj2 (float_of_string_value_error v Hdd) Herr). reflexivity.
Qed.

Lemma lstrip_spaces_app (w t : list ascii) :
  forallb is_space w = true -> lstrip (w ++ t) = lstrip t.
Proof.
  induction w as [|c w IH]; cbn; [reflexivity|].
  intros H. apply andb_true_iff in H as [Hc Hw]. rewrite Hc. exact (IH Hw).
Qed.

Lemma lstrip_app_spaces (s w : list ascii) :
  forallb is_space w = true ->
  lstrip (s ++ w) = lstrip s ++ w \/ (lstrip (s ++ w) = [] /\ lstrip s = []).
Proof.
  intros Hw. induction s as [|c s IH]; cbn.
  - right. split; [|reflexivity].
    rewrite <- (app_nil_r w), lstrip_spaces_app by exact Hw. reflexivity.
  - destruct (is_space c); [exact IH|left; reflexivity].
Qed.

Lemma forallb_rev (p : ascii -> bool) (s : list ascii) :
  forallb p (rev s) = forallb p s.
Proof.
  induction s as [|c s IH]; cbn; [reflexivity|].
  rewrite forallb_app, IH. cbn. rewrite andb_true_r, andb_comm. reflexivity.
Qed.

Lemma strip_pad (w1 s w2 : list ascii) :
  forallb is_space w1 = true -> forallb is_space w2 = true ->
  strip (w1 ++ s ++ w2) = strip s.
Proof.
  intros H1 H2. unfold strip. rewrite lstrip_spaces_app by exact H1.
  destruct (lstrip_app_spaces s w2 H2) as [E|[E1 E2]].
  - rewrite E. unfold rstrip. rewrite rev_app_distr, lstrip_spaces_app;
      [reflexivity|rewrite forallb_rev; exact H2].
  - rewrite E1, E2. reflexivity.
Qed.

(** White space around the size token is ignored: padding it on either
    side with white space does not change the result. *)
Theorem parse_file_size_ignores_padding (w1 s w2 : list ascii)
  (H1 : forallb is_space w1 = true) (H2 : forallb is_space w2 = true) :
  parse_file_size (w1 ++ s ++ w2) = parse_file_size s.
Proof. unfold parse_file_size. rewrite strip_pad by assumption. reflexivity. Qed.

Lemma parse_file_size_ignores_padding_witness :
  parse_file_size (L " 4K  ") = Ok 4096.
Proof.
  refine (eq_trans (parse_file_size_ignores_padding (L " ") (L "4K") (L "  ")
                      eq_refl eq_refl) _).
  vm_compute. reflexivity.
Defined.


(** ** More of [process_file_listing] *)

Lemma rfind_aux_cases (c : ascii) (s : list ascii) :
  forall i acc, rfind_aux c s i acc = acc \/
    exists k, (k < List.length s)%nat /\ nth_error s k = Some c /\
              rfind_aux c s i acc = i + Z.of_nat k.
Proof.
  induction s as [|x s IH]; intros i acc; cbn; [left; reflexivity|].
  destruct (IH (i + 1) (if Ascii.eqb x c then i else acc)) as [E|(k & Hk & Hn & E)].
  - rewrite E. destruct (Ascii.eqb_spec x c) as [->|_]; [|left; reflexivity].
    right. exists 0%nat. split; [lia|]. split; [reflexivity|lia].
  - right. exists (S k). split; [lia|]. split; [exact Hn|]. rewrite E. lia.
Qed.

Lemma skipn_nth_error (l : list ascii) (k : nat) (x : ascii) :
  nth_error l k = Some x -> skipn k l = x :: skipn (S k) l.
Proof.
  revert k; induction l as [|y l IH]; intros [|k]; cbn; try discriminate.
  - intros H. injection H as ->. reflexivity.
  - exact (IH k).
Qed.

(** A suffix is empty, or a dot followed by at least one character. *)
Lemma suffix_cases (p : list ascii) :
  suffix p = [] \/ exists c r, suffix p = "."%char :: c :: r.
Proof.
  unfold suffix. set (name := path_name p). unfold rfind.
  destruct (rfind_aux_cases "." name 0 (-1)) as [E|(k & Hk & Hn & E)]; rewrite E.
  - left. reflexivity.
  - destruct ((0 <? 0 + Z.of_nat k) && (0 + Z.of_nat k <? Z.of_nat (List.length name) - 1))
      eqn:H; [|left; reflexivity].
    right. apply andb_true_iff in H as [_ H]. apply Z.ltb_lt in H.
    replace (Z.to_nat (0 + Z.of_nat k)) with k by lia.
    rewrite (skipn_nth_error _ _ _ Hn).
    destruct (skipn (S k) name) as [|c r] eqn:Hs.
    + exfalso. assert (Hl := length_skipn (S k) name). rewrite Hs in Hl. cbn in Hl. lia.
    + exists c, r. reflexivity.
Qed.

Lemma lower_char_not_upper (c : ascii) : is_upper (lower_char c) = false.
Proof.
  unfold lower_char, is_upper, code.
  destruct ((65 <=? nat_of_ascii c) && (nat_of_ascii c <=? 90))%nat eqn:H.
  - apply andb_true_iff in H as [H1 H2]. apply Nat.leb_le in H1, H2.
    rewrite nat_ascii_embedding by lia.
    apply andb_false_iff. right. apply Nat.leb_gt. lia.
  - exact H.
Qed.

Lemma lower_no_upper (s : list ascii) :
  forallb (fun c => negb (is_upper c)) (lower s) = true.
Proof.
  unfold lower. induction s as [|c s IH]; cbn [map forallb]; [reflexivity|].
  rewrite lower_char_not_upper, IH. reflexivity.
Qed.

Lemma lower_suffix_shape (name : list ascii) : extension_shape (lower (suffix name)).
Proof.
  split; [|apply lower_no_upper].
  destruct (suffix_cases name) as [->|(c & r & ->)]; [left; reflexivity|].
  right. exists (lower_char c), (lower r). reflexivity.
Qed.

Lemma Forall2_left {A B} (R : A -> B -> Prop) (P : A -> Prop) l1 l2 :
  (forall a b, R a b -> P a) -> Forall2 R l1 l2 -> Forall P l1.
Proof.
  intros H HF. induction HF; constructor; [exact (H _ _ H0)|exact IHHF].
Qed.

Lemma listing_entries_facts (content : list ascii) (entries : list FileEntry) :
  process_file_listing content = Ok entries ->
  Forall (fun e => extension_shape (extension e) /\ 0 <= size e) entries.
Proof.
  intros Hrun. refine (Forall2_left entry_of_line _ _ _ _
                         (process_lines_entries _ _ _ Hrun)).
  intros e m (Hsz & Hext & _). split.
  - rewrite Hext. apply lower_suffix_shape.
  - exact (parse_file_size_ok_nonneg _ _ Hsz).
Qed.

(** Every extension in the result of [process_file_listing] is empty or a
    dot followed by at least one character, and has no capital letter. *)
Theorem listing_extension_shape (content : list ascii) (entries : list FileEntry)
  (Hrun : process_file_listing content = Ok entries) :
  Forall (fun e => extension_shape (extension e)) entries.
Proof.
  apply (Forall_impl _ (fun e (H : extension_shape (extension e) /\ 0 <= size e) => proj1 H)).
  exact (listing_entries_facts content entries Hrun).
Qed.

Lemma listing_extension_shape_witness :
  Forall (fun e => extension_shape (extension e)) example_entries.
Proof.
  exact (listing_extension_shape example_listing example_entries
           ltac:(vm_compute; reflexivity)).
Defined.

(** The keys of the [extension_stats] of a parsed listing (and so of the
    word-cloud frequencies) all begin with a dot followed by at least one
    character, and have no capital letter. *)
Theorem listing_stats_keys_shape (content : list ascii) (entries : list FileEntry)
  (Hrun : process_file_listing content = Ok entries) :
  Forall (fun k => (exists c r, k = "."%char :: c :: r) /\
                   forallb (fun c => negb (is_upper c)) k = true)
         (map fst (extension_stats (analyze_patterns entries))).
Proof.
  apply Forall_forall. intros k Hk.
  apply stats_keys_In in Hk as (Hne & e & Hin & <-).
  pose proof (listing_entries_facts content entries Hrun) as HF.
  rewrite Forall_forall in HF. destruct (HF e Hin) as [[[H|H] Hlow] _].
  - contradiction.
  - split; assumption.
Qed.

Lemma listing_stats_keys_shape_witness :
  Forall (fun k => (exists c r, k = "."%char :: c :: r) /\
                   forallb (fun c => negb (is_upper c)) k = true)
         (map fst (extension_stats (analyze_patterns example_entries))).
Proof.
  exact (listing_stats_keys_shape example_listing example_entries
           ltac:(vm_compute; reflexivity)).
Defined.

Lemma sum_sizes_nonneg (es : list FileEntry) :
  Forall (fun e => 0 <= size e) es -> 0 <= sum_sizes es.
Proof.
  intros H. induction H as [|e es He Hes IH]; [reflexivity|].
  unfold sum_sizes. cbn [fold_left]. rewrite sum_sizes_acc. lia.
Qed.

(** Every entry of a parsed listing has a non-negative size, so the
    [total_size] that [main] computes from it is non-negative. *)
Theorem listing_sizes_nonneg (content : list ascii) (entries : list FileEntry)
  (Hrun : process_file_listing content = Ok entries) :
  Forall (fun e => 0 <= size e) entries /\
  0 <= total_size (analyze_patterns entries).
Proof.
  assert (H : Forall (fun e => 0 <= size e) entries).
  { apply (Forall_impl _ (fun e (H : extension_shape (extension e) /\ 0 <= size e)
                            => proj2 H)).
    exact (listing_entries_facts content entries Hrun). }
  split; [exact H|]. unfold analyze_patterns. rewrite fold_analyze_total_size.
  exact (sum_sizes_nonneg _ H).
Qed.

Lemma listing_sizes_nonneg_witness :
  0 <= total_size (analyze_patterns example_entries).
Proof.
  exact (proj2 (listing_sizes_nonneg example_listing example_entries
                  ltac:(vm_compute; reflexivity))).
Defined.

(** A matched line with at most one leading white-space character is at
    depth 0: its entry's path is just its name, whatever the lines before
    it left on the path stack. *)
Theorem top_level_line_path (current_path : list (list ascii)) (line : list ascii)
  (rest : list (list ascii)) size_str name e entries
  (Hindent : (List.length line - List.length (lstrip line) < 2)%nat)
  (Hmatch : line_match (strip line) = Some (size_str, name))
  (Hrun : process_lines current_path (line :: rest) = Ok (e :: entries)) :
  path e = name.
Proof.
  cbn [process_lines] in Hrun.
  rewrite (matched_nonblank line _ Hmatch), Hmatch in Hrun.
  destruct (parse_file_size size_str); [|discriminate]. cbn [bind] in Hrun.
  destruct (process_lines _ rest); [|discriminate].
  injection Hrun as <- _. cbn [path].
  unfold indent_level. rewrite Nat.div_small by exact Hindent. reflexivity.
Qed.

Lemma top_level_line_path_witness :
  path (mkFileEntry (L "c.txt") 1 (L ".txt")) = L "c.txt".
Proof.
  exact (top_level_line_path [L "a"; L "b"] (L " [1] c.txt") [] (L "1") (L "c.txt")
           (mkFileEntry (L "c.txt") 1 (L ".txt")) []
           ltac:(apply Nat.ltb_lt; reflexivity) eq_refl
           ltac:(vm_compute; reflexivity)).
Defined.

Lemma LF_line_break : is_line_break LF = true.
Proof. reflexivity. Qed.

Lemma LF_not_CR : Ascii.eqb LF CR = false.
Proof. reflexivity. Qed.

(** A text ending in LF splits like the text without it, or with one more
    (empty) last line. *)
Lemma splitlines_aux_snoc_LF (s cur : list ascii) :
  splitlines_aux cur (s ++ [LF]) = splitlines_aux cur s \/
  splitlines_aux cur (s ++ [LF]) = splitlines_aux cur s ++ [[]].
Proof.
  assert (Hn : forall n s cur, (List.length s <= n)%nat ->
            splitlines_aux cur (s ++ [LF]) = splitlines_aux cur s \/
            splitlines_aux cur (s ++ [LF]) = splitlines_aux cur s ++ [[]]).
  2:{ exact (Hn _ s cur (le_n _)). }
  induction n as [|n IH]; intros [|c s'] cur0 Hlen; cbn [List.length] in Hlen;
    try lia.
  1,2: cbn [app splitlines_aux]; rewrite LF_line_break, LF_not_CR;
       destruct cur0; [right|left]; reflexivity.
  cbn [app splitlines_aux].
  destruct (is_line_break c); [destruct (Ascii.eqb c CR)|].
  - destruct s' as [|c' t'].
    + cbn [app]. rewrite Ascii.eqb_refl. left. reflexivity.
    + cbn [app]. destruct (Ascii.eqb c' LF).
      * cbn [List.length] in Hlen.
        destruct (IH t' [] ltac:(lia)) as [E|E]; rewrite E; [left|right]; reflexivity.
      * destruct (IH (c' :: t') [] ltac:(lia)) as [E|E]; cbn [app] in E;
          rewrite E; [left|right]; reflexivity.
  - destruct (IH s' [] ltac:(lia)) as [E|E]; rewrite E; [left|right]; reflexivity.
  - exact (IH s' (c :: cur0) ltac:(lia)).
Qed.

(** Splitting at an LF that ends a line: the lines before it, then the
    lines of the rest. *)
Lemma splitlines_aux_app_LF (s t cur : list ascii) :
  splitlines_aux cur (s ++ LF :: t)
  = splitlines_aux cur (s ++ [LF]) ++ splitlines_aux [] t.
Proof.
  assert (Hn : forall n s cur, (List.length s <= n)%nat ->
            splitlines_aux cur (s ++ LF :: t)
            = splitlines_aux cur (s ++ [LF]) ++ splitlines_aux [] t).
  2:{ exact (Hn _ s cur (le_n _)). }
  induction n as [|n IH]; intros [|c s'] cur0 Hlen; cbn [List.length] in Hlen;
    try lia.
  1,2: cbn [app splitlines_aux]; rewrite LF_line_break, LF_not_CR; reflexivity.
  cbn [app splitlines_aux].
  destruct (is_line_break c); [destruct (Ascii.eqb c CR)|].
  - destruct s' as [|c' t'].
    + cbn [app]. rewrite Ascii.eqb_refl. reflexivity.
    + cbn [app]. cbn [List.length] in Hlen. destruct (Ascii.eqb c' LF).
      * rewrite (IH t' [] ltac:(lia)). reflexivity.
      * pose proof (IH (c' :: t') [] ltac:(cbn [List.length]; lia)) as E. cbn [app] in E.
        rewrite E. reflexivity.
  - rewrite (IH s' [] ltac:(lia)). reflexivity.
  - exact (IH s' (c :: cur0) ltac:(lia)).
Qed.

(** A line of non-breaking characters followed by LF is one line. *)
Lemma splitlines_aux_one_line (w cur : list ascii) :
  forallb (fun c => negb (is_line_break c)) w = true ->
  splitlines_aux cur (w ++ [LF]) = [rev cur ++ w].
Proof.
  revert cur; induction w as [|c w IH]; intros cur H.
  - cbn [app splitlines_aux]. rewrite LF_line_break, LF_not_CR, app_nil_r.
    reflexivity.
  - cbn [forallb] in H. apply andb_true_iff in H as [Hc Hw].
    apply negb_true_iff in Hc. cbn [app splitlines_aux]. rewrite Hc, IH by exact Hw.
    cbn [rev]. rewrite <- app_assoc. reflexivity.
Qed.

(** A blank line is skipped without touching the path stack. *)
Lemma process_lines_skip_blank (before after : list (list ascii)) (w : list ascii) :
  strip w = [] -> forall current_path,
  process_lines current_path (before ++ w :: after)
  = process_lines current_path (before ++ after).
Proof.
  intros Hw. induction before as [|line before IH]; intros cp.
  - cbn [app process_lines]. rewrite Hw. reflexivity.
  - cbn [app process_lines].
    destruct (Nat.eqb (List.length (strip line)) 0); [apply IH|].
    destruct (line_match (strip line)) as [[size_str name]|]; [|apply IH].
    destruct (parse_file_size size_str); cbn [bind]; [|reflexivity].
    rewrite IH. reflexivity.
Qed.

Lemma strip_spaces (w : list ascii) : forallb is_space w = true -> strip w = [].
Proof.
  intros H. unfold strip. rewrite <- (app_nil_r w), lstrip_spaces_app by exact H.
  reflexivity.
Qed.

(** A final LF does not change the result of [process_file_listing]. *)
Theorem listing_trailing_newline (content : list ascii) :
  process_file_listing (content ++ [LF]) = process_file_listing content.
Proof.
  unfold process_file_listing, splitlines.
  destruct (splitlines_aux_snoc_LF content []) as [E|E]; rewrite E; [reflexivity|].
  rewrite <- (app_nil_r (splitlines_aux [] content)) at 2.
  apply process_lines_skip_blank. reflexivity.
Qed.

(** Inserting an empty or white-space-only line after any LF of the text
    does not change the result of [process_file_listing]: such lines are
    skipped before the indentation is looked at. *)
Theorem listing_blank_line_insert (before after w : list ascii)
  (Hw : forallb (fun c => is_space c && negb (is_line_break c)) w = true) :
  process_file_listing (before ++ LF :: w ++ LF :: after)
  = process_file_listing (before ++ LF :: after).
Proof.
  unfold process_file_listing, splitlines.
  rewrite (splitlines_aux_app_LF before (w ++ LF :: after) []),
    (splitlines_aux_app_LF w after []), (splitlines_aux_app_LF before after []),
    (splitlines_aux_one_line w []).
  - cbn [rev app]. apply process_lines_skip_blank. apply strip_spaces.
    apply forallb_forall. intros c Hc.
    pose proof (proj1 (forallb_forall _ w) Hw c Hc) as H.
    apply andb_true_iff in H. exact (proj1 H).
  - apply forallb_forall. intros c Hc.
    pose proof (proj1 (forallb_forall _ w) Hw c Hc) as H.
    apply andb_true_iff in H. exact (proj2 H).
Qed.

Lemma listing_blank_line_insert_witness :
  process_file_listing (L "[1] a" ++ LF :: L "  " ++ LF :: L "  [2] b.TXT")
  = Ok [mkFileEntry (L "a") 1 []; mkFileEntry (L "a/b.TXT") 2 (L ".txt")].
Proof.
  refine (eq_trans (listing_blank_line_insert (L "[1] a") (L "  [2] b.TXT") (L "  ")
                      eq_refl) _).
  vm_compute. reflexivity.
Defined.

Lemma ws_then_name_split (s name : list ascii) :
  ws_then_name s = Some name ->
  exists w, s = w ++ name /\ w <> [] /\ forallb is_space w = true /\ name <> [].
Proof.
  destruct s as [|w0 s']; [discriminate|]. cbn [ws_then_name].
  destruct (is_space w0) eqn:Hw0; [|discriminate].
  destruct (skipwhile is_space (w0 :: s')) as [|n0 ns] eqn:Hsk.
  - pose proof (skipwhile_nil _ _ Hsk) as Hall.
    destruct (rev (w0 :: s')) as [|l [|x r]] eqn:Hr; try discriminate.
    intros H. injection H as <-.
    assert (Hs : w0 :: s' = rev (x :: r) ++ [l]).
    { rewrite <- (rev_involutive (w0 :: s')), Hr. reflexivity. }
    exists (rev (x :: r)). rewrite Hs in Hall. rewrite forallb_app in Hall.
    apply andb_true_iff in Hall as [Hall _].
    split; [exact Hs|]. split; [|split; [exact Hall|discriminate]].
    cbn. intros H. apply app_eq_nil in H as [_ H]. discriminate.
  - intros H. injection H as <-.
    exists (takewhile is_space (w0 :: s')).
    pose proof (takewhile_skipwhile is_space (w0 :: s')) as Hsplit.
    rewrite Hsk in Hsplit.
    split; [symmetry; exact Hsplit|]. split; [|split; [apply takewhile_forallb|discriminate]].
    cbn. rewrite Hw0. discriminate.
Qed.

Lemma lazy_close_split (s acc size_str name : list ascii) :
  lazy_close acc s = Some (size_str, name) ->
  exists mid w, s = mid ++ "]"%char :: w ++ name /\ size_str = rev acc ++ mid /\
    size_str <> [] /\ w <> [] /\ forallb is_space w = true /\ name <> [].
Proof.
  revert acc; induction s as [|c s IH]; intros acc H; cbn [lazy_close] in H;
    [discriminate|].
  destruct acc as [|a acc'].
  - destruct (IH [c] H) as (mid & w & -> & Hsz & Hne & Hw).
    exists (c :: mid), w. split; [reflexivity|]. split; [exact Hsz|].
    split; [exact Hne|exact Hw].
  - assert (Hrec : lazy_close (c :: a :: acc') s = Some (size_str, name) ->
                   exists mid w, c :: s = mid ++ "]"%char :: w ++ name /\
                     size_str = rev (a :: acc') ++ mid /\ size_str <> [] /\
                     w <> [] /\ forallb is_space w = true /\ name <> []).
    { intros H'. destruct (IH _ H') as (mid & w & -> & Hsz & Hne & Hw).
      exists (c :: mid), w. split; [reflexivity|]. split; [|split; [exact Hne|exact Hw]].
      rewrite Hsz. cbn [rev]. rewrite <- !app_assoc. reflexivity. }
    destruct (Ascii.eqb c "]") eqn:Ec; [|exact (Hrec H)].
    destruct (ws_then_name s) as [nm|] eqn:Hws; [|exact (Hrec H)].
    injection H as <- <-. apply Ascii.eqb_eq in Ec. subst c.
    destruct (ws_then_name_split _ _ Hws) as (w & -> & Hw).
    exists [], w. split; [reflexivity|]. split; [rewrite app_nil_r; reflexivity|].
    split; [|exact Hw]. cbn [rev]. intros H. apply app_eq_nil in H as [_ H].
    discriminate.
Qed.

Lemma line_match_split (s : list ascii) r :
  line_match s = Some r ->
  exists pre t, s = pre ++ "["%char :: t /\ lazy_close [] t = Some r /\
                line_match t = None.
Proof.
  induction s as [|c s IH]; cbn [line_match]; [discriminate|].
  destruct (line_match s) as [r'|] eqn:E.
  - intros H. injection H as <-. destruct (IH eq_refl) as (pre & t & -> & H).
    exists (c :: pre), t. auto.
  - destruct (Ascii.eqb c "[") eqn:Ec; [|discriminate].
    apply Ascii.eqb_eq in Ec. subst c. intros H. exists [], s. auto.
Qed.

Lemma line_match_app_none (x y : list ascii) :
  line_match (x ++ y) = None -> line_match y = None.
Proof.
  induction x as [|c x IH]; cbn [app line_match]; [auto|].
  destruct (line_match (x ++ y)); [discriminate|]. intros _. exact (IH eq_refl).
Qed.



(** The greedy [.*] makes the pattern use the last opening bracket from
    which it can match: the name group never contains a further
    bracketed size followed by white space and text. *)
Theorem line_match_name_has_no_match (s size_str name : list ascii)
  (Hm : line_match s = Some (size_str, name)) :
  line_match name = None.
Proof.
  destruct (line_match_split s _ Hm) as (pre & t & -> & Hlc & Hnone).
  destruct (lazy_close_split _ _ _ _ Hlc) as (mid & w & -> & _).
  apply (line_match_app_none (mid ++ "]"%char :: w)).
  rewrite <- app_assoc. exact Hnone.
Qed.

Lemma line_match_name_has_no_match_witness :
  line_match (L "[1] a [2] b") = Some (L "2", L "b") /\ line_match (L "b") = None.
Proof.
  split; [reflexivity|].
  exact (line_match_name_has_no_match (L "[1] a [2] b") (L "2") (L "b") eq_refl).
Defined.
